(** * SpeculAI: the dashboard's components and the decision-pipeline core

    A shallow embedding of the TypeScript sources of the dashboard
    (api client, pages and components) and of the two pipeline services
    the specification describes without shipping their code (risk engine,
    memory retrieval), with the properties stated about them.

    Part I holds the definitions, one module per source file; Part II holds
    the theorems, one module per component. *)

From Stdlib Require Import ZArith QArith Qround Qpower Qabs Lia Lqa Bool List.
From Stdlib Require Import Ascii String DecimalString.
From Stdlib Require Import Sorting.Permutation Sorting.Sorted.
Import ListNotations.

Set Warnings "-register-all".

Open Scope string_scope.
Open Scope list_scope.
Open Scope Z_scope.

(* ================================================================== *)
(** * Part I: definitions *)
(* ================================================================== *)

(** ** JavaScript values used by the components *)

Module JS.

(** A JavaScript number: [NaN], the two infinities, or a finite value.
    A finite value is kept as the rational it is equal to; the sign of zero
    is not tracked.  The finite numbers of JavaScript are the IEEE 754
    binary64 values: [to_double] below rounds a rational to the nearest of
    them, and the operations whose result is rounded say so. *)
Inductive number : Type :=
| NaN
| NegInf
| Fin (q : Q)
| PosInf.

Definition isNaN (x : number) : bool :=
  match x with NaN => true | _ => false end.

(** [x < y] on numbers; every comparison with [NaN] is false. *)
Definition lt (x y : number) : bool :=
  match x, y with
  | NaN, _ | _, NaN => false
  | _, NegInf => false
  | NegInf, _ => true
  | PosInf, _ => false
  | Fin _, PosInf => true
  | Fin a, Fin b => negb (Qle_bool b a)
  end.

Definition gt (x y : number) : bool := lt y x.

(** [x <= y]: false with [NaN], else the negation of [y < x]. *)
Definition le (x y : number) : bool :=
  match x, y with
  | NaN, _ | _, NaN => false
  | _, _ => negb (lt y x)
  end.

Definition Math_max (x y : number) : number :=
  match x, y with
  | NaN, _ | _, NaN => NaN
  | _, _ => if lt x y then y else x
  end.

Definition Math_min (x y : number) : number :=
  match x, y with
  | NaN, _ | _, NaN => NaN
  | _, _ => if lt y x then y else x
  end.

(** The product as it is before rounding: [x * y] of JavaScript is
    [to_double (mul x y)]. *)
Definition mul (x y : number) : number :=
  match x, y with
  | NaN, _ | _, NaN => NaN
  | Fin a, Fin b => Fin (a * b)
  | Fin a, PosInf | PosInf, Fin a =>
      if Qle_bool a 0 then (if Qle_bool 0 a then NaN else NegInf) else PosInf
  | Fin a, NegInf | NegInf, Fin a =>
      if Qle_bool a 0 then (if Qle_bool 0 a then NaN else PosInf) else NegInf
  | PosInf, PosInf | NegInf, NegInf => PosInf
  | PosInf, NegInf | NegInf, PosInf => NegInf
  end.

Definition neg_inf_swap (x : number) : number :=
  match x with
  | PosInf => NegInf
  | NegInf => PosInf
  | other => other
  end.

Definition sub (x y : number) : number :=
  match x, y with
  | NaN, _ | _, NaN => NaN
  | Fin a, Fin b => Fin (a - b)
  | PosInf, PosInf | NegInf, NegInf => NaN
  | PosInf, _ | _, NegInf => PosInf
  | NegInf, _ | _, PosInf => NegInf
  end.

(** The quotient as it is before rounding; only a finite, non-zero divisor
    is used by the pages, the other cases follow IEEE 754 without the sign of
    zero. *)
Definition div (x y : number) : number :=
  match x, y with
  | NaN, _ | _, NaN => NaN
  | Fin a, Fin b =>
      if Qeq_bool b 0 then
        (if Qeq_bool a 0 then NaN else if Qle_bool 0 a then PosInf else NegInf)
      else Fin (a / b)
  | Fin _, _ => Fin 0
  | _, Fin b => if Qle_bool 0 b then x else neg_inf_swap x
  | _, _ => NaN
  end.

(** [Math.round]: the nearest integer, a tie going up. *)
Definition Math_round (x : number) : number :=
  match x with
  | Fin q => Fin (inject_Z (Qfloor (q + (1 # 2))))
  | other => other
  end.

(** Truthiness of a number: [NaN] and zero are falsy. *)
Definition truthy (x : number) : bool :=
  match x with
  | NaN => false
  | Fin q => negb (Qeq_bool q 0)
  | _ => true
  end.

(** [x || 0] on numbers. *)
Definition or_zero (x : number) : number :=
  if truthy x then x else Fin 0.

(** String comparison [s < t]: lexicographic on the code units. *)
Definition str_lt (s t : string) : bool := String.ltb s t.
Definition str_gt (s t : string) : bool := String.ltb t s.
Definition str_ge (s t : string) : bool := negb (String.ltb s t).

(** Truthiness of a string: only the empty string is falsy. *)
Definition str_truthy (s : string) : bool :=
  match s with EmptyString => false | _ => true end.

(** [x >= y]: false with [NaN]. *)
Definition ge (x y : number) : bool := le y x.

(** *** Doubles *)

(** [floor (log2 q)] for a positive rational. *)
Definition ilog2 (q : Q) : Z :=
  let e := Z.log2 (Qnum q) - Z.log2 (Zpos (Qden q)) in
  if Qle_bool (Qpower (2 # 1) e) q then e else e - 1.

(** The nearest integer, a tie going to the even one. *)
Definition round_even (q : Q) : Z :=
  let f := Qfloor q in
  let r := (q - inject_Z f)%Q in
  if Qle_bool r (1 # 2)
  then (if Qle_bool (1 # 2) r then (if Z.even f then f else f + 1) else f)
  else f + 1.

(** The exponent of the last mantissa bit of the doubles next to a positive
    rational: 52 below its leading bit, and not below -1074, where the
    subnormal numbers lie. *)
Definition ulp_exponent (q : Q) : Z := Z.max (ilog2 q - 52) (-1074).

(** The nearest multiple of the last mantissa bit, for a positive rational. *)
Definition round_pos (q : Q) : Q :=
  (inject_Z (round_even (q / Qpower (2 # 1) (ulp_exponent q)))
   * Qpower (2 # 1) (ulp_exponent q))%Q.

(** Rounding to the nearest double, a tie going to the even mantissa; what
    rounds to [2^1024] or beyond is an infinity. *)
Definition to_double (x : number) : number :=
  match x with
  | Fin q =>
      if Qeq_bool q 0 then Fin 0
      else if Qle_bool 0 q then
        (if Qle_bool (Qpower (2 # 1) 1024) (round_pos q) then PosInf
         else Fin (round_pos q))
      else
        (if Qle_bool (Qpower (2 # 1) 1024) (round_pos (- q)) then NegInf
         else Fin (- round_pos (- q)))
  | other => other
  end.

(** Half the last mantissa bit of the doubles below 128: how far
    [to_double] moves a rational of that range at most. *)
Definition double_error_128 : Q := 1 # (2 ^ 47).

(** *** [parseFloat]

    The longest prefix of the trimmed string that reads as a decimal
    literal: an optional sign, then [Infinity], or digits with an optional
    fraction and an optional exponent.  No such prefix gives [NaN].
    [decimal_value] is the rational the literal denotes and [parseFloat] the
    double nearest to it.  The strings hold UTF-8, so the white space that
    is trimmed is one byte for the ASCII characters and two or three bytes
    for the others. *)

Definition is_space (c : ascii) : bool :=
  let n := N_of_ascii c in
  ((9 <=? n) && (n <=? 13))%N || (n =? 32)%N.

(** U+1680, U+2000 to U+200A, U+2028, U+2029, U+202F, U+205F, U+3000 and
    U+FEFF, by their three bytes. *)
Definition is_space3 (a b c : ascii) : bool :=
  let x := N_of_ascii a in
  let y := N_of_ascii b in
  let z := N_of_ascii c in
  ((x =? 225) && (y =? 154) && (z =? 128))%N
  || ((x =? 226) && (y =? 128)
      && (((128 <=? z) && (z <=? 138)) || (z =? 168) || (z =? 169) || (z =? 175)))%N
  || ((x =? 226) && (y =? 129) && (z =? 159))%N
  || ((x =? 227) && (y =? 128) && (z =? 128))%N
  || ((x =? 239) && (y =? 187) && (z =? 191))%N.

(** What follows one white space character at the head of [s], if [s] starts
    with one (U+00A0 is the two bytes 194 160). *)
Definition skip_space (s : string) : option string :=
  match s with
  | String a r =>
      if is_space a then Some r
      else
        match r with
        | String b r2 =>
            if ((N_of_ascii a =? 194) && (N_of_ascii b =? 160))%N then Some r2
            else
              match r2 with
              | String c r3 => if is_space3 a b c then Some r3 else None
              | EmptyString => None
              end
        | EmptyString => None
        end
  | EmptyString => None
  end.

Fixpoint trim_start_within (n : nat) (s : string) : string :=
  match n with
  | O => s
  | S n' =>
      match skip_space s with
      | Some r => trim_start_within n' r
      | None => s
      end
  end.

(** The string without its leading white space; every step drops a byte at
    least, so the length of the string is steps enough. *)
Definition trim_start (s : string) : string :=
  trim_start_within (String.length s) s.

Definition digit_of (c : ascii) : option Z :=
  let n := N_of_ascii c in
  if ((48 <=? n) && (n <=? 57))%N then Some (Z.of_N n - 48) else None.

(** The leading decimal digits of [s] and what follows them. *)
Fixpoint take_digits (s : string) : list Z * string :=
  match s with
  | String c r =>
      match digit_of c with
      | Some d => let (ds, rest) := take_digits r in (d :: ds, rest)
      | None => ([], s)
      end
  | EmptyString => ([], s)
  end.

Definition digits_value (ds : list Z) : Z :=
  fold_left (fun acc d => 10 * acc + d) ds 0.

(** The exponent part [e[+-]digits] at the head of [s], or 0 without one. *)
Definition exponent_of (s : string) : Z :=
  match s with
  | String c r =>
      if (Ascii.eqb c "e" || Ascii.eqb c "E")%bool then
        match r with
        | String "-" r' =>
            match take_digits r' with
            | ([], _) => 0
            | (ds, _) => - digits_value ds
            end
        | String "+" r' => digits_value (fst (take_digits r'))
        | _ => digits_value (fst (take_digits r))
        end
      else 0
  | EmptyString => 0
  end.

(** An unsigned literal at the head of [s]. *)
Definition parse_unsigned (s : string) : number :=
  if String.prefix "Infinity" s then PosInf
  else
    let (ip, r1) := take_digits s in
    let (fp, r2) :=
      match r1 with
      | String "." r => take_digits r
      | _ => ([], r1)
      end in
    match ip, fp with
    | [], [] => NaN
    | _, _ =>
        Fin (inject_Z (digits_value (ip ++ fp))
             * Qpower (10 # 1) (exponent_of r2 - Z.of_nat (List.length fp)))
    end.

Definition neg (x : number) : number :=
  match x with
  | NaN => NaN
  | NegInf => PosInf
  | PosInf => NegInf
  | Fin q => Fin (- q)
  end.

(** The value of the literal at the head of the trimmed string, before it
    is rounded. *)
Definition decimal_value (s : string) : number :=
  match trim_start s with
  | String "-" r => neg (parse_unsigned r)
  | String "+" r => parse_unsigned r
  | t => parse_unsigned t
  end.

Definition parseFloat (s : string) : number := to_double (decimal_value s).

End JS.

(** ** Pagination component *)

Module Pagination.

(** The props the component computes with. *)
Record PaginationProps : Type := mkProps {
  total : Z;
  limit : Z;
  offset : Z
}.

(** [Math.ceil (a / b)] for a positive divisor. *)
Definition ceil_div (a b : Z) : Z := - ((- a) / b).

Definition currentPage (p : PaginationProps) : Z := offset p / limit p + 1.
Definition totalPages (p : PaginationProps) : Z :=
  Z.max 1 (ceil_div (total p) (limit p)).
Definition hasPrev (p : PaginationProps) : bool := 0 <? offset p.
Definition hasNext (p : PaginationProps) : bool := offset p + limit p <? total p.

(** [goToPrev] and [goToNext]: the offset handed to [onOffsetChange], if the
    callback is called at all. *)
Definition goToPrev (p : PaginationProps) : option Z :=
  if hasPrev p then Some (Z.max 0 (offset p - limit p)) else None.

Definition goToNext (p : PaginationProps) : option Z :=
  if hasNext p then Some (offset p + limit p) else None.

Definition start (p : PaginationProps) : Z :=
  if total p =? 0 then 0 else offset p + 1.
Definition end_ (p : PaginationProps) : Z :=
  Z.min (offset p + limit p) (total p).

(** The two buttons carry [disabled={!hasPrev}] and [disabled={!hasNext}]. *)
Definition prevDisabled (p : PaginationProps) : bool := negb (hasPrev p).
Definition nextDisabled (p : PaginationProps) : bool := negb (hasNext p).

End Pagination.

(** ** ConfidenceBar component *)

Module ConfidenceBar.
Import JS.

(** The [value] prop: [number | string].  A number is a double: the
    number the source writes [0.015] is [to_double (Fin (15 # 1000))]. *)
Inductive value_prop : Type :=
| VNumber (n : number)
| VString (s : string).

Definition getBarColor (pct : number) : string :=
  if le (Fin (3 # 4)) pct then "bg-gain"
  else if le (Fin (1 # 2)) pct then "bg-yellow-500"
  else "bg-loss".

Definition numeric (value : value_prop) : number :=
  match value with
  | VString s => parseFloat s
  | VNumber n => n
  end.

Definition clamped (value : value_prop) : number :=
  Math_max (Fin 0)
    (Math_min (Fin 1)
       (if isNaN (numeric value) then Fin 0 else numeric value)).

(** [Math.round(clamped * 100)]: the product is rounded to a double, then
    to an integer. *)
Definition pct (value : value_prop) : number :=
  Math_round (to_double (mul (clamped value) (Fin 100))).

Definition barColor (value : value_prop) : string :=
  getBarColor (clamped value).

(** Rounding to the nearest integer, a tie going up: the [round] of the
    statements. *)
Definition round_half_up (q : Q) : Z := Qfloor (q + (1 # 2)).

End ConfidenceBar.

(** ** Shared types (types/index.ts) *)

Module Types.

Record PositionResponse : Type := mkPosition {
  id : Z;
  stock_id : Z;
  ticker : option string;
  quantity : string;
  avg_price : string;
  current_price : option string;
  unrealized_pnl : option string;
  weight_pct : option string;
  currency : string;
  opened_at : string;
  closed_at : option string;
  status : string
}.

Inductive SortDirection : Type := asc | desc.

Record SortConfig (T : Type) : Type := mkSort {
  key : T;
  direction : SortDirection
}.
Arguments mkSort {T} _ _.
Arguments key {T} _.
Arguments direction {T} _.

(** [type Action = 'BUY' | 'SELL' | 'HOLD']. *)
Inductive Action : Type := BUY | SELL | HOLD.

(** [type PipelineStatus = 'RUNNING' | 'SUCCESS' | 'FAILED' | null]: the
    three string literals of the union, and [None] for [null]. *)
Inductive PipelineStatusLiteral : Type :=
| RUNNING
| SUCCESS
| FAILED.

Definition PipelineStatus : Type := option PipelineStatusLiteral.

(** The string a literal of the union stands for. *)
Definition literal_text (l : PipelineStatusLiteral) : string :=
  match l with
  | RUNNING => "RUNNING"
  | SUCCESS => "SUCCESS"
  | FAILED => "FAILED"
  end.

(** Whether a status string is a member of the union. *)
Definition as_PipelineStatus (s : string) : option PipelineStatusLiteral :=
  if String.eqb s "RUNNING" then Some RUNNING
  else if String.eqb s "SUCCESS" then Some SUCCESS
  else if String.eqb s "FAILED" then Some FAILED
  else None.

(** The PipelineRun status set of the data model. *)
Definition spec_pipeline_statuses : list string :=
  ["RUNNING"; "SUCCESS"; "FAILED"; "PARTIAL_FAILURE"].

End Types.

(** ** PositionsTable component *)

Module PositionsTable.
Import JS Types.

Inductive SortKey : Type :=
| K_ticker
| K_quantity
| K_avg_price
| K_current_price
| K_unrealized_pnl
| K_weight_pct.

(** [a[sort.key] ?? '']: the field, the empty string standing in for
    [null]. *)
Definition field_or_empty (k : SortKey) (a : PositionResponse) : string :=
  match k with
  | K_ticker => match ticker a with Some s => s | None => "" end
  | K_quantity => quantity a
  | K_avg_price => avg_price a
  | K_current_price => match current_price a with Some s => s | None => "" end
  | K_unrealized_pnl => match unrealized_pnl a with Some s => s | None => "" end
  | K_weight_pct => match weight_pct a with Some s => s | None => "" end
  end.

Definition numericKeys : list SortKey :=
  [K_quantity; K_avg_price; K_current_price; K_unrealized_pnl; K_weight_pct].

Definition SortKey_eqb (a b : SortKey) : bool :=
  match a, b with
  | K_ticker, K_ticker | K_quantity, K_quantity | K_avg_price, K_avg_price
  | K_current_price, K_current_price | K_unrealized_pnl, K_unrealized_pnl
  | K_weight_pct, K_weight_pct => true
  | _, _ => false
  end.

Definition includes (l : list SortKey) (k : SortKey) : bool :=
  existsb (SortKey_eqb k) l.

(** The value a row is compared by: a number for the numeric keys
    ([parseFloat(String(v)) || 0]), the string itself otherwise. *)
Inductive sort_value : Type :=
| SNum (n : number)
| SStr (s : string).

Definition sort_val (sort : SortConfig SortKey) (a : PositionResponse) : sort_value :=
  let aVal := field_or_empty (key sort) a in
  if includes numericKeys (key sort)
  then SNum (or_zero (parseFloat aVal))
  else SStr aVal.

(** [aVal < bVal]; the two values always come from the same key, so they
    are both numbers or both strings. *)
Definition val_lt (x y : sort_value) : bool :=
  match x, y with
  | SNum a, SNum b => JS.lt a b
  | SStr a, SStr b => str_lt a b
  | _, _ => false
  end.

(** The comparator handed to [sort]. *)
Definition compareFn (sort : SortConfig SortKey) (a b : PositionResponse) : Z :=
  let aVal := sort_val sort a in
  let bVal := sort_val sort b in
  if val_lt aVal bVal then
    match direction sort with asc => -1 | desc => 1 end
  else if val_lt bVal aVal then
    match direction sort with asc => 1 | desc => -1 end
  else 0.

(** [Array.prototype.sort] with a comparator: stable (ECMAScript 2019), so
    an element moves in front of another only when the comparator says it is
    smaller.  Written as the stable insertion sort. *)
Fixpoint insert_by {A : Type} (cmp : A -> A -> Z) (x : A) (l : list A) : list A :=
  match l with
  | [] => [x]
  | y :: r => if cmp x y <=? 0 then x :: l else y :: insert_by cmp x r
  end.

Fixpoint sort_by {A : Type} (cmp : A -> A -> Z) (l : list A) : list A :=
  match l with
  | [] => []
  | x :: r => insert_by cmp x (sort_by cmp r)
  end.

(** Arrays live in a store and are passed by reference; a reference is the
    index of the array in the store. *)
Definition store : Type := list (list PositionResponse).
Definition ref : Type := nat.

Definition deref (h : store) (r : ref) : list PositionResponse :=
  nth r h [].

(** [[...positions]]: a fresh array with the same elements. *)
Definition spread (h : store) (r : ref) : store * ref :=
  (h ++ [deref h r], List.length h).

(** [arr.sort(cmp)]: sorts the array behind [r] in place and returns [r]. *)
Fixpoint update (h : store) (r : ref) (v : list PositionResponse) : store :=
  match h, r with
  | [], _ => []
  | _ :: t, O => v :: t
  | x :: t, S r' => x :: update t r' v
  end.

Definition sort_in_place (h : store) (r : ref)
    (cmp : PositionResponse -> PositionResponse -> Z) : store * ref :=
  (update h r (sort_by cmp (deref h r)), r).

Definition sortPositions (h : store) (positions : ref)
    (sort : SortConfig SortKey) : store * ref :=
  let (h1, copy) := spread h positions in
  sort_in_place h1 copy (compareFn sort).

(** Whether row [a] may stand before row [b] under a sort configuration:
    ascending, the key of [b] is not below the key of [a]; descending, the
    key of [a] is not below the key of [b]. *)
Definition in_order (sort : SortConfig SortKey) (a b : PositionResponse) : bool :=
  match direction sort with
  | asc => negb (val_lt (sort_val sort b) (sort_val sort a))
  | desc => negb (val_lt (sort_val sort a) (sort_val sort b))
  end.

(** [handleSort]: the configuration after a click on the header of [k]. *)
Definition handleSort (k : SortKey) (prev : SortConfig SortKey) : SortConfig SortKey :=
  mkSort k (if SortKey_eqb (key prev) k
               && match direction prev with desc => true | asc => false end
            then asc else desc).

(** A row for the examples. *)
Definition sample (t : string) (w : option string) : PositionResponse :=
  mkPosition 1 1 (Some t) "1" "10.0" None None w "EUR" "2025-01-01" None "OPEN".

End PositionsTable.

(** ** API client *)

Module ApiClient.

(** A value produced by [response.json()].  Numbers are restricted to
    integers; the members of an object have distinct keys. *)
Inductive json : Type :=
| JNull
| JBool (b : bool)
| JNum (n : Z)
| JStr (s : string)
| JArr (items : list json)
| JObj (members : list (string * json)).

(** Property access [v.k] and [v?.k]: [None] is [undefined].  Only an
    object has own properties named [error], [message] or [detail]. *)
Fixpoint lookup (k : string) (members : list (string * json)) : option json :=
  match members with
  | [] => None
  | (k', v) :: r => if String.eqb k k' then Some v else lookup k r
  end.

Definition get (v : option json) (k : string) : option json :=
  match v with
  | Some (JObj members) => lookup k members
  | _ => None
  end.

Definition is_truthy (v : option json) : bool :=
  match v with
  | None | Some JNull => false
  | Some (JBool b) => b
  | Some (JNum n) => negb (n =? 0)
  | Some (JStr s) => JS.str_truthy s
  | Some (JArr _) | Some (JObj _) => true
  end.

Definition show_Z (n : Z) : string := NilZero.string_of_int (Z.to_int n).

Definition quote : string := String (ascii_of_nat 34) EmptyString.

Definition hex_digit (n : nat) : ascii :=
  ascii_of_nat (if Nat.ltb n 10 then 48 + n else 87 + n).

(** One character of a string inside [JSON.stringify]'s output. *)
Definition escape_char (c : ascii) : string :=
  let n := nat_of_ascii c in
  if Nat.eqb n 34 then "\" ++ quote
  else if Nat.eqb n 92 then "\\"
  else if Nat.eqb n 8 then "\b"
  else if Nat.eqb n 12 then "\f"
  else if Nat.eqb n 10 then "\n"
  else if Nat.eqb n 13 then "\r"
  else if Nat.eqb n 9 then "\t"
  else if Nat.ltb n 32 then
    "\u00" ++ String (hex_digit (Nat.div n 16)) (String (hex_digit (Nat.modulo n 16)) "")
  else String c "".

Fixpoint escape (s : string) : string :=
  match s with
  | EmptyString => ""
  | String c r => escape_char c ++ escape r
  end.

Definition quoted (s : string) : string := quote ++ escape s ++ quote.

(** [JSON.stringify]. *)
Fixpoint JSON_stringify (v : json) : string :=
  match v with
  | JNull => "null"
  | JBool true => "true"
  | JBool false => "false"
  | JNum n => show_Z n
  | JStr s => quoted s
  | JArr items =>
      "[" ++ (fix join (l : list json) : string :=
                match l with
                | [] => ""
                | [x] => JSON_stringify x
                | x :: r => JSON_stringify x ++ "," ++ join r
                end) items ++ "]"
  | JObj members =>
      "{" ++ (fix join (l : list (string * json)) : string :=
                match l with
                | [] => ""
                | [(k, x)] => quoted k ++ ":" ++ JSON_stringify x
                | (k, x) :: r => quoted k ++ ":" ++ JSON_stringify x ++ "," ++ join r
                end) members ++ "}"
  end%string.

(** The string [new Error(v)] keeps as its message ([String(v)]). *)
Fixpoint toString (v : json) : string :=
  match v with
  | JNull => "null"
  | JBool true => "true"
  | JBool false => "false"
  | JNum n => show_Z n
  | JStr s => s
  | JArr items =>
      (fix join (l : list json) : string :=
         match l with
         | [] => ""
         | [x] => match x with JNull => "" | _ => toString x end
         | x :: r => match x with JNull => "" | _ => toString x end ++ "," ++ join r
         end) items
  | JObj _ => "[object Object]"
  end%string.

(** What [fetch] resolves to.  [body] is the value [response.json()]
    resolves to, [None] when the body is not JSON and the promise rejects. *)
Record Response : Type := mkResponse {
  status : Z;
  statusText : string;
  body : option json
}.

(** [response.ok]: the status is in the range 200-299. *)
Definition ok (r : Response) : bool := (200 <=? status r) && (status r <=? 299).

Inductive exn : Type :=
| Error (message : string)
| SyntaxError.

(** How the promise returned by [apiFetch] settles. *)
Inductive outcome : Type :=
| Resolved (v : json)
| Rejected (e : exn).

Definition http_message (r : Response) : string :=
  ("HTTP " ++ show_Z (status r) ++ ": " ++ statusText r)%string.

(** The message of the error thrown for a response that is not ok. *)
Definition error_message (r : Response) : string :=
  match body r with
  | None => http_message r
  | Some b =>
      let m := get (get (Some b) "error") "message" in
      if is_truthy m then
        match m with Some v => toString v | None => http_message r end
      else
        let d := get (Some b) "detail" in
        if is_truthy d then
          match d with
          | Some (JStr t) => t
          | Some v => JSON_stringify v
          | None => http_message r
          end
        else http_message r
  end.

Definition apiFetch (response : Response) : outcome :=
  if negb (ok response) then Rejected (Error (error_message response))
  else
    match body response with
    | Some v => Resolved v
    | None => Rejected SyntaxError
    end.

(** *** Query strings *)

(** A value in a record of query parameters. *)
Inductive param : Type :=
| PUndefined
| PNull
| PString (s : string)
| PNumber (n : JS.number)
| PBoolean (b : bool).

(** The filter of [buildQueryString]:
    [v !== undefined && v !== null && v !== '']. *)
Definition param_kept (v : param) : bool :=
  match v with
  | PUndefined | PNull => false
  | PString s => negb (String.eqb s "")
  | PNumber _ | PBoolean _ => true
  end.

(** The characters [encodeURIComponent] leaves as they are. *)
Definition is_unreserved (c : ascii) : bool :=
  let n := nat_of_ascii c in
  (Nat.leb 65 n && Nat.leb n 90) || (Nat.leb 97 n && Nat.leb n 122)
  || (Nat.leb 48 n && Nat.leb n 57)
  || existsb (Nat.eqb n) [45; 95; 46; 33; 126; 42; 39; 40; 41]%nat.

Definition hex_upper (n : nat) : ascii :=
  ascii_of_nat (if Nat.ltb n 10 then 48 + n else 55 + n).

Definition encode_char (c : ascii) : string :=
  if is_unreserved c then String c ""
  else String "%" (String (hex_upper (Nat.div (nat_of_ascii c) 16))
                     (String (hex_upper (Nat.modulo (nat_of_ascii c) 16)) "")).

(** [encodeURIComponent] on text held as its UTF-8 bytes: every byte
    outside the unreserved set is escaped as [%XX]. *)
Fixpoint encodeURIComponent (s : string) : string :=
  match s with
  | EmptyString => ""
  | String c r => encode_char c ++ encodeURIComponent r
  end.

(** [Array.prototype.join]. *)
Fixpoint join (sep : string) (l : list string) : string :=
  match l with
  | [] => ""
  | [x] => x
  | x :: r => x ++ sep ++ join sep r
  end%string.

Section QueryString.
(** [Number.prototype.toString], left abstract. *)
Variable Number_toString : JS.number -> string.

(** [String(v)]. *)
Definition String_of (v : param) : string :=
  match v with
  | PUndefined => "undefined"
  | PNull => "null"
  | PString s => s
  | PNumber n => Number_toString n
  | PBoolean true => "true"
  | PBoolean false => "false"
  end.

(** [buildQueryString]; the record is the list of its entries in insertion
    order. *)
Definition buildQueryString (params : list (string * param)) : string :=
  let entries := filter (fun e => param_kept (snd e)) params in
  match entries with
  | [] => ""
  | _ =>
      ("?" ++ join "&"
                (map (fun e => encodeURIComponent (fst e) ++ "="
                               ++ encodeURIComponent (String_of (snd e)))
                     entries))%string
  end.

(** The parameters a query string carries: the entries the filter keeps,
    each with the text of its value. *)
Definition kept_texts (params : list (string * param)) : list (string * string) :=
  map (fun e => (fst e, String_of (snd e)))
      (filter (fun e => param_kept (snd e)) params).

Definition BASE : string := "/api".

(** The URL [fetchTrades] requests. *)
Definition fetchTrades_url (params : list (string * param)) : string :=
  (BASE ++ "/trades" ++ buildQueryString params)%string.

(** The URL [fetchDecisions] requests. *)
Definition fetchDecisions_url (params : list (string * param)) : string :=
  (BASE ++ "/decisions" ++ buildQueryString params)%string.

End QueryString.

(** Whether a character occurs in a string. *)
Fixpoint has_char (c : ascii) (s : string) : bool :=
  match s with
  | EmptyString => false
  | String x r => Ascii.eqb x c || has_char c r
  end.

(** One [name=value] pair of a query string, from the name and the text of
    the value. *)
Definition item (e : string * string) : string :=
  (encodeURIComponent (fst e) ++ "=" ++ encodeURIComponent (snd e))%string.

End ApiClient.

(** ** Trades page *)

Module TradesPage.

Definition upper_char (c : ascii) : ascii :=
  let n := nat_of_ascii c in
  if (Nat.leb 97 n && Nat.leb n 122)%bool then ascii_of_nat (n - 32) else c.

(** [toUpperCase] on the ASCII range. *)
Fixpoint toUpperCase (s : string) : string :=
  match s with
  | EmptyString => EmptyString
  | String c r => String (upper_char c) (toUpperCase r)
  end.

(** The options of the [status] select of [FILTER_FIELDS]: value and
    label. *)
Definition status_options : list (string * string) :=
  [ ("", "All statuses");
    ("EXECUTED", "Executed");
    ("PENDING", "Pending");
    ("FAILED", "Failed");
    ("CANCELLED", "Cancelled") ].

(** The [styles] record of [statusBadge]. *)
Definition styles : list (string * string) :=
  [ ("EXECUTED", "text-gain bg-gain/10 border-gain/30");
    ("PENDING", "text-yellow-400 bg-yellow-400/10 border-yellow-400/30");
    ("FAILED", "text-loss bg-loss/10 border-loss/30");
    ("CANCELLED", "text-gray-400 bg-gray-700 border-gray-600") ].

Fixpoint record_get (k : string) (r : list (string * string)) : option string :=
  match r with
  | [] => None
  | (k', v) :: t => if String.eqb k k' then Some v else record_get k t
  end.

(** The class string [statusBadge] gives a status:
    [styles[status.toUpperCase()] ?? styles.CANCELLED]. *)
Definition statusBadge (status : string) : option string :=
  match record_get (toUpperCase status) styles with
  | Some style => Some style
  | None => record_get "CANCELLED" styles
  end.

(** The statuses the filter lets the user pick (the empty value is
    "all statuses", no status). *)
Definition filter_statuses : list string :=
  filter (fun v => negb (String.eqb v "")) (map fst status_options).

(** The statuses with a style of their own. *)
Definition styled_statuses : list string := map fst styles.

(** The Trade status set of the data model, as the specification and the
    requirements document list it. *)
Definition spec_trade_statuses : list string :=
  ["PENDING"; "FILLED"; "FAILED"; "CANCELLED"].

Definition LIMIT : Z := 50.

(** The [Filters] state of the page.  The filter bar of this page has text,
    select and date fields only, so every value is a string. *)
Record Filters : Type := mkFilters {
  ticker : string;
  side : string;
  status : string;
  start_date : string;
  end_date : string
}.

Definition DEFAULT_FILTERS : Filters := mkFilters "" "" "" "" "".

(** [...(v ? { k: w } : {})]: the entry is spread in when [v] is truthy, that
    is, not the empty string. *)
Definition spread_if (v k w : string) : list (string * ApiClient.param) :=
  if String.eqb v "" then [] else [(k, ApiClient.PString w)].

Section Query.
(** [String.prototype.toUpperCase] on any text, letters outside ASCII
    included, left abstract; [toUpperCase] above is what it does on ASCII
    text. *)
Variable String_toUpperCase : string -> string.

(** The [queryParams] object of a render, as its entries in insertion
    order. *)
Definition queryParams (filters : Filters) (offset : Z)
  : list (string * ApiClient.param) :=
  spread_if (ticker filters) "ticker" (String_toUpperCase (ticker filters))
  ++ spread_if (side filters) "side" (side filters)
  ++ spread_if (status filters) "status" (status filters)
  ++ spread_if (start_date filters) "start_date" (start_date filters)
  ++ spread_if (end_date filters) "end_date" (end_date filters)
  ++ [ ("limit", ApiClient.PNumber (JS.Fin (inject_Z LIMIT)));
       ("offset", ApiClient.PNumber (JS.Fin (inject_Z offset))) ].

(** The URL the page requests in a render: [fetchTrades(queryParams)]. *)
Definition request_url (Number_toString : JS.number -> string)
    (filters : Filters) (offset : Z) : string :=
  ApiClient.fetchTrades_url Number_toString (queryParams filters offset).

End Query.

(** The name and text of a filter that is sent: none for the empty string. *)
Definition sent_if (k v : string) : list (string * string) :=
  if String.eqb v "" then [] else [(k, v)].

End TradesPage.

(** ** Backtest page *)

Module BacktestPage.
Import JS.

(** *** Dates *)

Definition is_leap (y : Z) : bool :=
  (y mod 4 =? 0) && (negb (y mod 100 =? 0) || (y mod 400 =? 0)).

Definition days_in_month (y m : Z) : Z :=
  if m =? 2 then (if is_leap y then 29 else 28)
  else if (m =? 4) || (m =? 6) || (m =? 9) || (m =? 11) then 30
  else 31.

(** Days from 1970-01-01 to the civil date [y-m-d] (proleptic Gregorian
    calendar). *)
Definition days_from_civil (y m d : Z) : Z :=
  let y' := if m <=? 2 then y - 1 else y in
  let era := y' / 400 in
  let yoe := y' - era * 400 in
  let mp := (m + 9) mod 12 in
  let doy := (153 * mp + 2) / 5 + d - 1 in
  let doe := yoe * 365 + yoe / 4 - yoe / 100 + doy in
  era * 146097 + doe - 719468.

Definition valid_date (y m d : Z) : bool :=
  (1 <=? m) && (m <=? 12) && (1 <=? d) && (d <=? days_in_month y m).

(** The fields of a date-only string [YYYY-MM-DD], the form a date input
    gives its value in. *)
Definition parse_date (s : string) : option (Z * Z * Z) :=
  match s with
  | String y3 (String y2 (String y1 (String y0 (String sep1
      (String m1 (String m0 (String sep2 (String d1 (String d0 EmptyString))))))))) =>
      if (Ascii.eqb sep1 "-" && Ascii.eqb sep2 "-")%bool then
        match digit_of y3, digit_of y2, digit_of y1, digit_of y0,
              digit_of m1, digit_of m0, digit_of d1, digit_of d0 with
        | Some a, Some b, Some c, Some d, Some e, Some f, Some g, Some h =>
            Some (1000 * a + 100 * b + 10 * c + d, 10 * e + f, 10 * g + h)
        | _, _, _, _, _, _, _, _ => None
        end
      else None
  | _ => None
  end.

Definition ms_per_day : Z := 1000 * 60 * 60 * 24.

(** [new Date(s).getTime()]: a date-only string is read as midnight UTC of
    that day; any other text is an invalid date, whose time is [NaN]. *)
Definition Date_getTime (s : string) : number :=
  match parse_date s with
  | Some (y, m, d) =>
      if valid_date y m d
      then Fin (inject_Z (days_from_civil y m d * ms_per_day))
      else NaN
  | None => NaN
  end.

(** *** State of the page *)

(** Modelled from the spec: [BacktestProgressResponse] and
    [BacktestTriggerRequest] are imported from the types module, which does
    not declare them; the fields are the ones the page reads and sends, the
    status is the BacktestRun status of the data model.  The metrics and the
    equity curve, which the page only displays, are left out. *)
Record BacktestProgressResponse : Type := mkProgress {
  backtest_run_id : string;
  status : string;
  current_day : Z;
  total_days : Z;
  errors : list string
}.

Record BacktestTriggerRequest : Type := mkRequest {
  start_date : string;
  end_date : string;
  initial_capital : number
}.

Record PageState : Type := mkState {
  startDate : string;
  endDate : string;
  initialCapital : number;
  formError : option string;
  progress : option BacktestProgressResponse;
  loading : bool;
  error : option string;
  pollRef : option string
}.

(** [useState] defaults. *)
Definition initial_state : PageState :=
  mkState "" "" (Fin 50000) None None false None None.

Definition setFormError (e : option string) (s : PageState) : PageState :=
  mkState (startDate s) (endDate s) (initialCapital s) e
          (progress s) (loading s) (error s) (pollRef s).
Definition setProgress (p : option BacktestProgressResponse) (s : PageState) : PageState :=
  mkState (startDate s) (endDate s) (initialCapital s) (formError s)
          p (loading s) (error s) (pollRef s).
Definition setLoading (b : bool) (s : PageState) : PageState :=
  mkState (startDate s) (endDate s) (initialCapital s) (formError s)
          (progress s) b (error s) (pollRef s).
Definition setError (e : option string) (s : PageState) : PageState :=
  mkState (startDate s) (endDate s) (initialCapital s) (formError s)
          (progress s) (loading s) e (pollRef s).
Definition setPollRef (r : option string) (s : PageState) : PageState :=
  mkState (startDate s) (endDate s) (initialCapital s) (formError s)
          (progress s) (loading s) (error s) r.
Definition setStartDate (v : string) (s : PageState) : PageState :=
  mkState v (endDate s) (initialCapital s) (formError s)
          (progress s) (loading s) (error s) (pollRef s).
Definition setEndDate (v : string) (s : PageState) : PageState :=
  mkState (startDate s) v (initialCapital s) (formError s)
          (progress s) (loading s) (error s) (pollRef s).
Definition setInitialCapital (v : number) (s : PageState) : PageState :=
  mkState (startDate s) (endDate s) v (formError s)
          (progress s) (loading s) (error s) (pollRef s).

Definition status_is (p : option BacktestProgressResponse) (v : string) : bool :=
  match p with
  | Some r => String.eqb (status r) v
  | None => false
  end.

Definition isRunning (s : PageState) : bool :=
  status_is (progress s) "RUNNING" || status_is (progress s) "PENDING".
Definition isComplete (s : PageState) : bool := status_is (progress s) "COMPLETED".
Definition isFailed (s : PageState) : bool := status_is (progress s) "FAILED".

(** The submit button's [disabled={loading || isRunning}]. *)
Definition submit_disabled (s : PageState) : bool := loading s || isRunning s.

(** *** Form validation and submit *)

Definition ms_per_year : number := Fin (inject_Z (1000 * 60 * 60 * 24 * 365)).

(** [validate()]: the result and the state after its [setFormError]. *)
Definition validate (today : string) (s : PageState) : bool * PageState :=
  if negb (str_truthy (startDate s)) || negb (str_truthy (endDate s)) then
    (false, setFormError (Some "Please select both start and end dates") s)
  else if str_ge (startDate s) (endDate s) then
    (false, setFormError (Some "Start date must be before end date") s)
  else if str_gt (endDate s) today then
    (false, setFormError (Some "End date cannot be in the future") s)
  else
    let msRange := sub (Date_getTime (endDate s)) (Date_getTime (startDate s)) in
    let yearRange := div msRange ms_per_year in
    if gt yearRange (Fin 5) then
      (false, setFormError (Some "Date range cannot exceed 5 years") s)
    else if le (initialCapital s) (Fin 0) then
      (false, setFormError (Some "Initial capital must be positive") s)
    else (true, setFormError None s).

(** The requests the page sends. *)
Inductive request : Type :=
| TriggerBacktest (body : BacktestTriggerRequest)
| FetchBacktestProgress (runId : string).

(** [handleSubmit] up to its [await]: the state after the synchronous part
    and the request sent, if any. *)
Definition handleSubmit (today : string) (s : PageState) : PageState * list request :=
  let (valid, s1) := validate today s in
  if negb valid then (s1, [])
  else
    (setProgress None (setError None (setLoading true s1)),
     [TriggerBacktest (mkRequest (startDate s) (endDate s) (initialCapital s))]).

(** How a request settles: with a response, or with the message of the
    error thrown ([None] when what was thrown is not an [Error]). *)
Inductive settled : Type :=
| Fulfilled (result : BacktestProgressResponse)
| Failed (message : option string).

(** [handleSubmit] after its [await]: [startPolling] replaces the interval,
    [finally] clears [loading]. *)
Definition handleSubmit_resume (r : settled) (s : PageState) : PageState :=
  match r with
  | Fulfilled result =>
      setLoading false
        (setPollRef (Some (backtest_run_id result)) (setProgress (Some result) s))
  | Failed message =>
      setLoading false
        (setError (Some (match message with
                         | Some m => m
                         | None => "Failed to start backtest"
                         end)) s)
  end.

(** The interval callback of [startPolling] after its [await]. *)
Definition poll_resume (r : settled) (s : PageState) : PageState :=
  match r with
  | Fulfilled result =>
      let s1 := setProgress (Some result) s in
      if negb (String.eqb (status result) "RUNNING")
         && negb (String.eqb (status result) "PENDING")
      then setPollRef None s1
      else s1
  | Failed _ => s
  end.

(** What can happen to the page. *)
Inductive event : Type :=
| ChangeStartDate (v : string)
| ChangeEndDate (v : string)
| ChangeInitialCapital (v : number)
| Submit
| TriggerSettled (r : settled)
| PollTick
| PollSettled (r : settled).

(** One step of the page.  [Submit] is a press of the submit button (or of
    Enter in a field): it reaches [handleSubmit] only while the button is
    enabled.  The browser also keeps the submit event back while a control
    fails its constraint ([max] on the dates, [min] and [step] on the
    capital): that check is the browser's and is not part of the step, so a
    run of the page is a run of [step] in which such presses have no
    [Submit] event; what holds of every list of events holds of the page. *)
Definition step (today : string) (s : PageState) (e : event) : PageState * list request :=
  match e with
  | ChangeStartDate v => (setStartDate v s, [])
  | ChangeEndDate v => (setEndDate v s, [])
  | ChangeInitialCapital v => (setInitialCapital v s, [])
  | Submit => if submit_disabled s then (s, []) else handleSubmit today s
  | TriggerSettled r => (handleSubmit_resume r s, [])
  | PollTick =>
      match pollRef s with
      | Some runId => (s, [FetchBacktestProgress runId])
      | None => (s, [])
      end
  | PollSettled r => (poll_resume r s, [])
  end.

(** A run of the page: the final state and every request sent, in order. *)
Fixpoint run (today : string) (s : PageState) (es : list event) : PageState * list request :=
  match es with
  | [] => (s, [])
  | e :: r =>
      let (s1, out1) := step today s e in
      let (s2, out2) := run today s1 r in
      (s2, out1 ++ out2)
  end.

Definition is_trigger (r : request) : bool :=
  match r with TriggerBacktest _ => true | _ => false end.

(** The trigger requests among the requests sent, and the trigger
    requests that have settled among the events. *)
Definition triggers (rs : list request) : nat :=
  List.length (filter is_trigger rs).

Definition is_trigger_settled (e : event) : bool :=
  match e with TriggerSettled _ => true | _ => false end.

Definition settled_triggers (es : list event) : nat :=
  List.length (filter is_trigger_settled es).

(** *** Progress bar *)



(** *** Definitions the statements use *)

(** A form filled in, nothing running. *)
Definition filled (s e : string) (c : Q) : PageState :=
  mkState s e (Fin c) None None false None None.

(** The order of two civil dates: by year, then month, then day. *)
Definition civil_compare (a b : Z * Z * Z) : comparison :=
  let '(y, m, d) := a in
  let '(y', m', d') := b in
  match y ?= y' with
  | Eq => match m ?= m' with Eq => d ?= d' | o => o end
  | o => o
  end.

(** What a string that reads as a date looks like. *)
Inductive date_text : string -> Z * Z * Z -> Prop :=
| DateText c3 c2 c1 c0 e1 e0 f1 f0 y3 y2 y1 y0 m1 m0 d1 d0 :
    digit_of c3 = Some y3 -> digit_of c2 = Some y2 ->
    digit_of c1 = Some y1 -> digit_of c0 = Some y0 ->
    digit_of e1 = Some m1 -> digit_of e0 = Some m0 ->
    digit_of f1 = Some d1 -> digit_of f0 = Some d0 ->
    date_text
      (String c3 (String c2 (String c1 (String c0 (String "-"
         (String e1 (String e0 (String "-" (String f1 (String f0 EmptyString))))))))))
      (1000 * y3 + 100 * y2 + 10 * y1 + y0, 10 * m1 + m0, 10 * d1 + d0).

(** The span condition the way the specification words it: the end date is
    at most [n] calendar years after the start date (the same day and month,
    [n] years on). *)
Definition span_at_most_years (n : Z) (start_ end_ : string) : bool :=
  match parse_date start_, parse_date end_ with
  | Some (y1, m1, d1), Some (y2, m2, d2) =>
      days_from_civil y2 m2 d2 <=? days_from_civil (y1 + n) m1 d1
  | _, _ => false
  end.

(** The day number of a date string (0 when it is not a date). *)
Definition day_number (s : string) : Z :=
  match parse_date s with
  | Some (y, m, d) => days_from_civil y m d
  | None => 0
  end.

(** The status report an event brings the page, if it brings one: the
    answer to the trigger request or the answer to a poll. *)
Definition response_of (e : event) : option BacktestProgressResponse :=
  match e with
  | TriggerSettled (Fulfilled r) => Some r
  | PollSettled (Fulfilled r) => Some r
  | _ => None
  end.

(** The last status report among the events of a run. *)
Fixpoint last_response (es : list event) : option BacktestProgressResponse :=
  match es with
  | [] => None
  | e :: r =>
      match last_response r with
      | Some x => Some x
      | None => response_of e
      end
  end.

(** A report of a run that is still active. *)
Definition active (r : BacktestProgressResponse) : bool :=
  String.eqb (status r) "RUNNING" || String.eqb (status r) "PENDING".

(** A visit of the page: the form is filled in and submitted, the trigger is
    answered PENDING and the first poll RUNNING. *)
Definition sample_visit : list event :=
  [ ChangeStartDate "2024-01-01"; ChangeEndDate "2025-01-01";
    ChangeInitialCapital (Fin 50001); Submit;
    TriggerSettled (Fulfilled (mkProgress "run-1" "PENDING" 0 250 []));
    PollTick;
    PollSettled (Fulfilled (mkProgress "run-1" "RUNNING" 3 250 [])) ].

End BacktestPage.

(** ** Risk engine *)

Module RiskEngine.
Import Types.
Local Open Scope Q_scope.

(** Modelled from the spec: the risk engine (section 4.2; the service
    [risk_manager.py] of the implementation plan) is not among the sources.
    Proposals, portfolio, configuration and the six steps of the algorithm
    follow the specification's words.  Figures are exact rationals; what
    the portfolio holds (cash, numbers of shares), prices and exchange rates
    are amounts, rationals that are not negative. *)

Record amount : Type := mkAmount {
  numerator : N;
  denominator : positive
}.

Definition value_of (a : amount) : Q := Z.of_N (numerator a) # denominator a.

(** A whole amount. *)
Definition amt (n : N) : amount := mkAmount n 1.

Record Proposal : Type := mkProposal {
  p_ticker : string;
  p_action : Action;
  p_confidence : Q;
  p_allocation : Q;        (* suggested allocation, a fraction of portfolio value *)
  p_price : amount;        (* latest price of one share, in [p_currency] *)
  p_currency : string
}.

Record Position : Type := mkHolding {
  h_ticker : string;
  h_quantity : amount;
  h_price : amount;        (* latest price of one share, in [h_currency] *)
  h_currency : string
}.

Record Portfolio : Type := mkPortfolio {
  cash : amount;              (* in the base currency *)
  positions : list Position   (* the open positions *)
}.

Record Config : Type := mkConfig {
  max_positions : nat;
  max_position_pct : Q;    (* a fraction: 5% is 5/100 *)
  min_trade_value : Q;
  rate : string -> amount  (* latest exchange rate of a currency to the base currency *)
}.

Inductive ReasonCode : Type :=
| not_held
| max_positions_reached
| below_minimum
| insufficient_cash
| internal_error.

Record Trade : Type := mkTrade {
  t_ticker : string;
  t_side : Action;
  t_quantity : Q;
  t_value : Q              (* in the base currency *)
}.

Record Rejection : Type := mkRejection {
  r_proposal : Proposal;
  r_code : ReasonCode;
  r_text : string
}.

Definition reason_text (c : ReasonCode) : string :=
  match c with
  | not_held => "instrument is not currently held"
  | max_positions_reached => "max positions reached"
  | below_minimum => "trade value below the minimum trade value"
  | insufficient_cash => "no cash remains"
  | internal_error => "internal error"
  end.

Definition reject (p : Proposal) (c : ReasonCode) : Rejection :=
  mkRejection p c (reason_text c).

Definition qmin (a b : Q) : Q := if Qle_bool a b then a else b.

(** Step 1: amounts in the base currency. *)
Definition position_value (cfg : Config) (h : Position) : Q :=
  value_of (h_quantity h) * value_of (h_price h)
  * value_of (rate cfg (h_currency h)).

Definition base_price (cfg : Config) (p : Proposal) : Q :=
  value_of (p_price p) * value_of (rate cfg (p_currency p)).

Definition sum_values (cfg : Config) (hs : list Position) : Q :=
  fold_right (fun h acc => position_value cfg h + acc) 0%Q hs.

Definition portfolio_value (cfg : Config) (pf : Portfolio) : Q :=
  value_of (cash pf) + sum_values cfg (positions pf).

(** Step 2: the partition. *)
Definition is_sell (p : Proposal) : bool :=
  match p_action p with SELL => true | _ => false end.
Definition is_buy (p : Proposal) : bool :=
  match p_action p with BUY => true | _ => false end.

(** The state the batch runs on: the engine's own copy of the holdings, the
    available cash and the open-position count. *)
Record Running : Type := mkRunning {
  held : list Position;
  available : Q;
  open_count : nat
}.

Fixpoint find_held (t : string) (hs : list Position) : option Position :=
  match hs with
  | [] => None
  | h :: r => if String.eqb (h_ticker h) t then Some h else find_held t r
  end.

Fixpoint remove_held (t : string) (hs : list Position) : list Position :=
  match hs with
  | [] => []
  | h :: r => if String.eqb (h_ticker h) t then r else h :: remove_held t r
  end.

(** Step 3: a SELL of a held instrument is approved and frees its cash and
    its slot; any other SELL is rejected. *)
Fixpoint process_sells (cfg : Config) (st : Running) (sells : list Proposal)
  : list Trade * list Rejection * Running :=
  match sells with
  | [] => ([], [], st)
  | p :: rest =>
      match find_held (p_ticker p) (held st) with
      | Some h =>
          let st' := mkRunning (remove_held (p_ticker p) (held st))
                               (available st + position_value cfg h)
                               (Nat.pred (open_count st)) in
          let '(ts, rs, st'') := process_sells cfg st' rest in
          (mkTrade (p_ticker p) SELL (value_of (h_quantity h))
                   (position_value cfg h) :: ts,
           rs, st'')
      | None =>
          let '(ts, rs, st'') := process_sells cfg st rest in
          (ts, reject p not_held :: rs, st'')
      end
  end.

(** Step 4: descending confidence, ties in the original order. *)
Fixpoint insert_by_confidence (p : Proposal) (l : list Proposal) : list Proposal :=
  match l with
  | [] => [p]
  | q :: r =>
      if Qle_bool (p_confidence q) (p_confidence p) then p :: l
      else q :: insert_by_confidence p r
  end.

Fixpoint sort_by_confidence (l : list Proposal) : list Proposal :=
  match l with
  | [] => []
  | p :: r => insert_by_confidence p (sort_by_confidence r)
  end.

(** Step 5, one BUY: the decision and the cash and count after it.  A
    proposal without a positive price cannot be sized and is rejected with
    [internal_error]. *)
Definition decide_buy (cfg : Config) (pv : Q) (cash_now : Q) (count : nat)
    (p : Proposal) : (Trade + Rejection) * Q * nat :=
  if Qle_bool (base_price cfg p) 0 then (inr (reject p internal_error), cash_now, count)
  else if Nat.leb (max_positions cfg) count then
    (inr (reject p max_positions_reached), cash_now, count)
  else
    let target := qmin (p_allocation p) (max_position_pct cfg) * pv in
    let value := if Qle_bool target cash_now then target else cash_now in
    if Qle_bool cash_now 0 then (inr (reject p insufficient_cash), cash_now, count)
    else if negb (Qle_bool (min_trade_value cfg) value) then
      (inr (reject p below_minimum), cash_now, count)
    else
      (inl (mkTrade (p_ticker p) BUY (value / base_price cfg p) value),
       cash_now - value, S count).

Fixpoint process_buys (cfg : Config) (pv : Q) (cash_now : Q) (count : nat)
    (buys : list Proposal) : list Trade * list Rejection :=
  match buys with
  | [] => ([], [])
  | p :: rest =>
      let '(d, cash', count') := decide_buy cfg pv cash_now count p in
      let (ts, rs) := process_buys cfg pv cash' count' rest in
      match d with
      | inl t => (t :: ts, rs)
      | inr r => (ts, r :: rs)
      end
  end.

Record Validation : Type := mkValidation {
  approved : list Trade;
  rejected : list Rejection
}.

(** Modelled from the spec: the engine's entry point, missing with
    [risk_manager.py]; steps 2 to 6 of section 4.2, from the proposals, the
    portfolio state and the configuration to the approved trades and the
    rejections with their reasons. *)
Definition validate_recommendations (proposals : list Proposal) (pf : Portfolio) (cfg : Config)
  : Validation :=
  let pv := portfolio_value cfg pf in
  let sells := filter is_sell proposals in
  let buys := sort_by_confidence (filter is_buy proposals) in
  let '(sold, unsold, st) :=
    process_sells cfg (mkRunning (positions pf) (value_of (cash pf))
                                 (List.length (positions pf)))
                  sells in
  let (bought, unbought) := process_buys cfg pv (available st) (open_count st) buys in
  mkValidation (sold ++ bought) (unsold ++ unbought).

Definition total_value (side : Action) (ts : list Trade) : Q :=
  fold_right (fun t acc =>
                match t_side t, side with
                | BUY, BUY | SELL, SELL => t_value t + acc
                | _, _ => acc
                end) 0%Q ts.

(** *** Resulting positions *)








(** *** Sample data *)

Definition usd (c : string) : amount := amt 1.

(** The first scenario of the specification: 10,000 of cash, a cap of 5%,
    a minimum of 100, a portfolio worth 16,000. *)
Definition scenario_portfolio : Portfolio :=
  mkPortfolio (amt 10000) [mkHolding "OLD" (amt 60) (amt 100) "USD"].
Definition scenario_config : Config := mkConfig 20 (5 # 100) 100 usd.

End RiskEngine.

(** ** Memory retrieval *)

Module MemoryRetrieval.
Import Types.
Local Open Scope Q_scope.

(** Modelled from the spec: memory retrieval (section 4.3; the service
    [memory.py] of the implementation plan) is not among the sources.  The
    store, the visibility partition and the three tiers follow the
    specification's words. *)

Inductive Cross : Type := Bullish | Bearish | NoCross.

Record Instrument : Type := mkInstrument {
  ticker : string;
  sector : string
}.

Record DecisionReport : Type := mkReport {
  report_id : Z;
  instrument : string;
  action : Action;
  confidence : Q;
  reasoning : string;
  outcome : option Q;          (* outcome P&L, [None] until assessed *)
  created : Z;                 (* day of the decision *)
  rsi : Q;                     (* stored indicator snapshot *)
  macd_cross : Cross;
  is_backtest : bool;
  backtest_run_id : option string
}.

Record Store : Type := mkStore {
  instruments : list Instrument;
  reports : list DecisionReport
}.

(** The visibility partition a run retrieves under: live, or one backtest
    run's own history. *)
Inductive Scope : Type :=
| Live
| Backtest (run : string).

Record Candidate : Type := mkCandidate {
  c_instrument : string;
  c_action : Action;
  c_rsi : Q;
  c_macd_cross : Cross
}.

Record MemoryConfig : Type := mkMemoryConfig {
  rsi_tolerance : Q;           (* the band around the candidate's RSI *)
  max_items : nat              (* the cap per candidate: 10 *)
}.

(** The compact summary embedded in the oracle's context package. *)
Record MemoryItem : Type := mkItem {
  m_instrument : string;
  m_action : Action;
  m_confidence : Q;
  m_reasoning : string;
  m_outcome : option Q;
  m_date : Z
}.

(** Modelled from the spec: the visibility partition of section 3's
    invariant.  A report tagged as backtest belongs to the scope of its own
    run only; an untagged report is live. *)
Definition visible (sc : Scope) (r : DecisionReport) : bool :=
  match sc with
  | Live => negb (is_backtest r)
  | Backtest run =>
      is_backtest r &&
      match backtest_run_id r with
      | Some id => String.eqb id run
      | None => false
      end
  end.

Fixpoint sector_of (insts : list Instrument) (t : string) : option string :=
  match insts with
  | [] => None
  | i :: r => if String.eqb (ticker i) t then Some (sector i) else sector_of r t
  end.

Definition Action_eqb (a b : Action) : bool :=
  match a, b with
  | BUY, BUY | SELL, SELL | HOLD, HOLD => true
  | _, _ => false
  end.

Definition Cross_eqb (a b : Cross) : bool :=
  match a, b with
  | Bullish, Bullish | Bearish, Bearish | NoCross, NoCross => true
  | _, _ => false
  end.

Definition same_sector (st : Store) (a b : string) : bool :=
  match sector_of (instruments st) a, sector_of (instruments st) b with
  | Some x, Some y => String.eqb x y
  | _, _ => false
  end.

(** A stable sort by an order [before]: an element goes in front of the
    first one it is allowed to precede. *)
Fixpoint insert_sorted {A : Type} (before : A -> A -> bool) (x : A) (l : list A)
  : list A :=
  match l with
  | [] => [x]
  | y :: r => if before x y then x :: l else y :: insert_sorted before x r
  end.

Fixpoint sort_with {A : Type} (before : A -> A -> bool) (l : list A) : list A :=
  match l with
  | [] => []
  | x :: r => insert_sorted before x (sort_with before r)
  end.

(** Tier 1: the same instrument, most recent first, at most 10. *)
Definition tier1 (sc : Scope) (st : Store) (c : Candidate) : list DecisionReport :=
  firstn 10
    (sort_with (fun a b => (created b <=? created a)%Z)
       (filter (fun r => visible sc r && String.eqb (instrument r) (c_instrument c))
               (reports st))).

Definition outcome_value (r : DecisionReport) : Q :=
  match outcome r with Some q => q | None => 0 end.

Definition assessed (r : DecisionReport) : bool :=
  match outcome r with Some _ => true | None => false end.

(** Tier 2: other instruments of the same sector with the same action and
    an assessed outcome; best outcome first for a BUY candidate, worst first
    for a SELL candidate; at most 5. *)
Definition tier2 (sc : Scope) (st : Store) (c : Candidate) : list DecisionReport :=
  firstn 5
    (sort_with
       (fun a b =>
          match c_action c with
          | SELL => Qle_bool (outcome_value a) (outcome_value b)
          | _ => Qle_bool (outcome_value b) (outcome_value a)
          end)
       (filter (fun r =>
                  visible sc r
                  && negb (String.eqb (instrument r) (c_instrument c))
                  && same_sector st (instrument r) (c_instrument c)
                  && Action_eqb (action r) (c_action c)
                  && assessed r)
               (reports st))).

(** Tier 3: a stored snapshot within the tolerance band of the candidate's
    snapshot: RSI within the band, same MACD-cross direction. *)
Definition within_band (cfg : MemoryConfig) (c : Candidate) (r : DecisionReport) : bool :=
  Qle_bool (c_rsi c - rsi_tolerance cfg) (rsi r)
  && Qle_bool (rsi r) (c_rsi c + rsi_tolerance cfg)
  && Cross_eqb (macd_cross r) (c_macd_cross c).

Definition tier3 (cfg : MemoryConfig) (sc : Scope) (st : Store) (c : Candidate)
  : list DecisionReport :=
  filter (fun r => visible sc r && within_band cfg c r) (reports st).

(** The union without a report id twice: the first occurrence stays. *)
Fixpoint dedupe (seen : list Z) (l : list DecisionReport) : list DecisionReport :=
  match l with
  | [] => []
  | r :: t =>
      if existsb (Z.eqb (report_id r)) seen then dedupe seen t
      else r :: dedupe (report_id r :: seen) t
  end.

Fixpoint truncate (n : nat) (s : string) : string :=
  match n, s with
  | S k, String ch r => String ch (truncate k r)
  | _, _ => EmptyString
  end.

Definition summarize (r : DecisionReport) : MemoryItem :=
  mkItem (instrument r) (action r) (confidence r) (truncate 200 (reasoning r))
         (outcome r) (created r).

(** Modelled from the spec: the retrieval for one candidate, missing with
    [memory.py]; the union of the three tiers of section 4.3 without a report
    twice, capped, in rank order. *)
Definition retrieve_reports (cfg : MemoryConfig) (sc : Scope) (st : Store)
    (c : Candidate) : list DecisionReport :=
  firstn (max_items cfg)
    (dedupe [] (tier1 sc st c ++ tier2 sc st c ++ tier3 cfg sc st c)).

Definition retrieve (cfg : MemoryConfig) (sc : Scope) (st : Store) (c : Candidate)
  : list MemoryItem :=
  map summarize (retrieve_reports cfg sc st c).

(** *** Sample data *)

Definition report (id : Z) (t : string) (day : Z) (bt : bool) (run : option string)
  : DecisionReport :=
  mkReport id t BUY (7 # 10) "momentum with supportive news" (Some (3 # 100))
           day 55 Bullish bt run.

Definition sample_store : Store :=
  mkStore [mkInstrument "ASML" "tech"; mkInstrument "TSM" "tech"]
          [report 1 "ASML" 10 false None;
           report 2 "ASML" 11 true (Some "run-A");
           report 3 "TSM" 12 true (Some "run-B");
           report 4 "TSM" 13 false None;
           report 5 "ASML" 14 true (Some "run-A")].

Definition sample_candidate : Candidate := mkCandidate "ASML" BUY 57 Bullish.
Definition sample_config : MemoryConfig := mkMemoryConfig 5 10.

End MemoryRetrieval.

(** ** PortfolioSummaryCard component *)

Module PortfolioSummaryCard.
Import JS.

Record PortfolioSummaryResponse : Type := mkSummary {
  total_value : string;
  cash : string;
  invested : string;
  daily_pnl : string;
  cumulative_pnl_pct : string;
  num_positions : Z;
  positions : list Types.PositionResponse
}.

(** The dash the card shows for a missing amount. *)
Definition dash : string :=
  String (ascii_of_nat 226) (String (ascii_of_nat 128) (String (ascii_of_nat 148) "")).

Section Formatting.
(** [Intl.NumberFormat('en-GB', {style: 'currency', ...}).format]: the
    library's formatter, left abstract. *)
Variable intl_format : number -> string -> string.

(** [formatCurrency(value, currency = 'EUR')]; [None] is [null] or
    [undefined]. *)
Definition formatCurrency (value : option string) (currency : string) : string :=
  match value with
  | None => dash
  | Some v =>
      if negb (str_truthy v) then dash
      else if isNaN (parseFloat v) then dash
      else intl_format (parseFloat v) currency
  end.

End Formatting.

Definition isPnlPositive (value : option string) : bool :=
  match value with
  | None => false
  | Some v => if negb (str_truthy v) then false else ge (parseFloat v) (Fin 0)
  end.

(** [!!value] for a field that may be missing. *)
Definition present (value : option string) : bool :=
  match value with
  | None => false
  | Some v => str_truthy v
  end.

(** The colour [MetricCard] gives its value. *)
Definition valueColor (isPositive isNegative : bool) : string :=
  if isPositive then "text-gain"
  else if isNegative then "text-loss"
  else "text-white".

(** What [MetricCard] draws in the place of its value: the pulsing
    placeholder while loading, else the value in its colour. *)
Inductive value_view : Type :=
| Skeleton
| ValueText (text : string) (color : string).

Definition MetricCard_value (value : string) (isPositive isNegative loading : bool)
  : value_view :=
  if loading then Skeleton else ValueText value (valueColor isPositive isNegative).

(** What [PortfolioSummaryCard] draws, as far as the "Daily P&L" card goes:
    the error box in place of all four cards, or that card. *)
Inductive summary_view : Type :=
| ErrorBox (message : string)
| DailyCard (value : value_view).

(** [PortfolioSummaryCard], restricted to the "Daily P&L" card; [data] is
    [None] for [null], and so is [error]. *)
Definition PortfolioSummaryCard_daily (intl_format : number -> string -> string)
    (data : option PortfolioSummaryResponse) (loading : bool) (error : option string)
  : summary_view :=
  if present error then
    ErrorBox (match error with Some m => m | None => "" end)
  else
    let value := option_map daily_pnl data in
    let pnlPositive := isPnlPositive value in
    DailyCard
      (MetricCard_value (formatCurrency intl_format value "EUR")
         (negb loading && pnlPositive)
         (negb loading && negb pnlPositive && present value)
         loading).

End PortfolioSummaryCard.

(** ** Sidebar component *)

Module Sidebar.
Import JS.

Record BadgeConfig : Type := mkBadge {
  color : string;
  dot : string;
  label : string
}.

(** The [configs] record of [PipelineStatusBadge]. *)
Definition configs : list (string * BadgeConfig) :=
  [ ("RUNNING", mkBadge "text-yellow-400 bg-yellow-400/10 border-yellow-400/30"
                        "bg-yellow-400 animate-pulse" "Running");
    ("SUCCESS", mkBadge "text-gain bg-gain/10 border-gain/30" "bg-gain" "Success");
    ("FAILED", mkBadge "text-loss bg-loss/10 border-loss/30" "bg-loss" "Failed") ].

Fixpoint config_get (k : string) (r : list (string * BadgeConfig)) : option BadgeConfig :=
  match r with
  | [] => None
  | (k', v) :: t => if String.eqb k k' then Some v else config_get k t
  end.

(** [PipelineStatusBadge]: [None] when nothing is rendered, else the
    configuration the badge is drawn with. *)
Definition PipelineStatusBadge (status : option string) : option BadgeConfig :=
  match status with
  | None => None
  | Some s =>
      if negb (str_truthy s) then None
      else
        Some (match config_get (TradesPage.toUpperCase s) configs with
              | Some cfg => cfg
              | None => mkBadge "text-gray-400 bg-gray-700 border-gray-600"
                                "bg-gray-400" s
              end)
  end.

Record PipelineLastRun : Type := mkLastRun {
  pipeline_run_id : string;
  run_status : string;
  started_at : string;
  completed_at : option string;
  stocks_analyzed : Z;
  candidates_screened : Z;
  trades_approved : Z;
  trades_executed : Z;
  errors : list string
}.

Record PipelineStatusResponse : Type := mkStatusResponse {
  status : option string;
  last_run : option PipelineLastRun
}.

Record SidebarState : Type := mkSidebar {
  pipelineStatus : option PipelineStatusResponse;
  triggering : bool;
  triggerError : option string
}.

Definition initial_sidebar : SidebarState := mkSidebar None false None.

(** [pipelineStatus?.status ?? null]. *)
Definition current_status (s : SidebarState) : option string :=
  match pipelineStatus s with
  | Some r => status r
  | None => None
  end.

(** [pipelineStatus?.status === 'RUNNING']. *)
Definition status_running (s : SidebarState) : bool :=
  match current_status s with
  | Some t => String.eqb t "RUNNING"
  | None => false
  end.

(** The trigger button's [disabled]. *)
Definition trigger_disabled (s : SidebarState) : bool :=
  triggering s || status_running s.

(** What the sidebar asks of the outside. *)
Inductive effect : Type :=
| PostPipelineRun
| GetPipelineStatus
| SetTimeoutPollStatus.

Inductive promise_result (A : Type) : Type :=
| Settled_ok (result : A)
| Settled_err (message : option string).
Arguments Settled_ok {A} _.
Arguments Settled_err {A} _.

Inductive sidebar_event : Type :=
| PollDue                       (* mount, the 15 s interval or the 1 s timeout *)
| StatusSettled (r : promise_result PipelineStatusResponse)
| ClickTrigger
| TriggerSettled (r : promise_result unit).

(** One step of the sidebar.  A click reaches [handleTriggerPipeline] only
    while the button is enabled. *)
Definition sidebar_step (s : SidebarState) (e : sidebar_event) : SidebarState * list effect :=
  match e with
  | PollDue => (s, [GetPipelineStatus])
  | StatusSettled (Settled_ok r) =>
      (mkSidebar (Some r) (triggering s) (triggerError s), [])
  | StatusSettled (Settled_err _) => (s, [])
  | ClickTrigger =>
      if trigger_disabled s then (s, [])
      else (mkSidebar (pipelineStatus s) true None, [PostPipelineRun])
  | TriggerSettled (Settled_ok _) =>
      (mkSidebar (pipelineStatus s) false (triggerError s), [SetTimeoutPollStatus])
  | TriggerSettled (Settled_err m) =>
      (mkSidebar (pipelineStatus s) false
                 (Some (match m with
                        | Some t => t
                        | None => "Failed to trigger pipeline"
                        end)), [])
  end.

Fixpoint sidebar_run (s : SidebarState) (es : list sidebar_event) : SidebarState * list effect :=
  match es with
  | [] => (s, [])
  | e :: r =>
      let (s1, out1) := sidebar_step s e in
      let (s2, out2) := sidebar_run s1 r in
      (s2, out1 ++ out2)
  end.

Definition is_post (e : effect) : bool :=
  match e with PostPipelineRun => true | _ => false end.

Definition is_post_settled (e : sidebar_event) : bool :=
  match e with TriggerSettled _ => true | _ => false end.

(** The POSTs to the pipeline among the effects. *)
Definition posts (out : list effect) : nat := List.length (filter is_post out).

End Sidebar.

(* ================================================================== *)
(** * Part II: theorems *)
(* ================================================================== *)

Module PaginationFacts.
Import Pagination.

Lemma ceil_div_pos a b : 0 < b -> 0 < a -> 1 <= ceil_div a b.
Proof.
  intros Hb Ha. unfold ceil_div.
  assert ((- a) / b < 0) by (apply Z.div_lt_upper_bound; lia).
  lia.
Qed.

(** C9, as stated, fails: with [total = 5], [limit = 10] and [offset = 10]
    all three bounds of the claim hold, yet the displayed range starts at 11
    and ends at 5. *)
Lemma pagination_range_counterexample :
  let p := mkProps 5 10 10 in
  0 <= total p /\ 0 < limit p /\ 0 <= offset p /\ total p <> 0 /\
  ~ (1 <= start p <= end_ p /\ end_ p <= total p).
Proof.
  cbv zeta. simpl. repeat split; try lia.
  unfold start, end_; simpl. lia.
Qed.

(** C9 (amended): for every [total >= 0], [limit > 0] and [offset >= 0], Prev
    (enabled when [offset > 0]) emits [max 0 (offset - limit)], never
    negative; Next is enabled exactly when [offset + limit < total] and then
    emits [offset + limit], an offset strictly before [total]; [totalPages] is
    at least 1; the range starts at 0 when [total = 0]; and when the offset
    lies inside the result set ([offset < total]) the range satisfies
    [1 <= start <= end <= total]. *)
Theorem pagination_within_range (p : PaginationProps) :
  0 <= total p -> 0 < limit p -> 0 <= offset p ->
  (0 < offset p -> goToPrev p = Some (Z.max 0 (offset p - limit p))) /\
  (forall o, goToPrev p = Some o -> o = Z.max 0 (offset p - limit p) /\ 0 <= o) /\
  (nextDisabled p = false <-> offset p + limit p < total p) /\
  (offset p + limit p < total p -> goToNext p = Some (offset p + limit p)) /\
  (forall o, goToNext p = Some o -> o = offset p + limit p /\ 0 <= o < total p) /\
  1 <= totalPages p /\
  (total p = 0 -> start p = 0) /\
  (offset p < total p -> 1 <= start p <= end_ p /\ end_ p <= total p).
Proof.
  intros Ht Hl Ho.
  unfold goToPrev, goToNext, nextDisabled, hasPrev, hasNext, totalPages, start, end_.
  destruct (Z.ltb_spec 0 (offset p)) as [Hp | Hp];
    destruct (Z.ltb_spec (offset p + limit p) (total p)) as [Hn | Hn];
    destruct (Z.eqb_spec (total p) 0) as [Hz | Hz];
    cbn [negb];
    repeat split; intros;
    repeat match goal with
           | H : Some _ = Some _ |- _ => injection H as <-
           | H : None = Some _ |- _ => discriminate H
           | H : true = false |- _ => discriminate H
           | H : false = true |- _ => discriminate H
           end;
    try reflexivity; try lia.
Qed.

Lemma pagination_within_range_witness :
  let p := mkProps 150 50 50 in
  goToPrev p = Some 0 /\ goToNext p = Some 100 /\
  (1 <= start p <= end_ p /\ end_ p <= total p).
Proof.
  cbv zeta.
  pose proof (pagination_within_range (mkProps 150 50 50)
                ltac:(simpl; lia) ltac:(simpl; lia) ltac:(simpl; lia))
    as (Hprev & _ & _ & Hnext & _ & _ & _ & Hr).
  split; [apply Hprev; simpl; lia | split; [apply Hnext; simpl; lia|]].
  apply Hr; simpl; lia.
Defined.

End PaginationFacts.

Module DoubleFacts.
Import JS.
Local Open Scope Q_scope.

Lemma pow2_pos (e : Z) : 0 < Qpower 2 e.
Proof. apply Qpower_0_lt. reflexivity. Qed.

Lemma pow2_le (a b : Z) : (a <= b)%Z -> Qpower 2 a <= Qpower 2 b.
Proof. intros H. apply Qpower_le_compat_l; [exact H | discriminate]. Qed.

Lemma pow2_Z (a : Z) : (0 <= a)%Z -> Qpower 2 a == inject_Z (2 ^ a).
Proof. intros H. rewrite Zpower_Qpower by exact H. reflexivity. Qed.

Lemma inject_Z_pos (z : Z) : (0 < z)%Z -> 0 < inject_Z z.
Proof. intros H. change 0 with (inject_Z 0). now rewrite <- Zlt_Qlt. Qed.

Lemma Qdiv_le_cross (a b c d : Q) :
  0 < b -> 0 < d -> a * d <= c * b -> a / b <= c / d.
Proof.
  intros Hb Hd H. apply Qle_shift_div_r; [exact Hb|].
  assert (E : c / d * b == c * b / d) by (field; lra).
  rewrite E. apply Qle_shift_div_l; assumption.
Qed.

Lemma Qdiv_lt_cross (a b c d : Q) :
  0 < b -> 0 < d -> a * d < c * b -> a / b < c / d.
Proof.
  intros Hb Hd H. apply Qlt_shift_div_r; [exact Hb|].
  assert (E : c / d * b == c * b / d) by (field; lra).
  rewrite E. apply Qlt_shift_div_l; assumption.
Qed.

(** A positive rational between two quotients of powers of two. *)
Lemma log2_quotient (n : Z) (d : positive) :
  (0 < n)%Z ->
  Qpower 2 (Z.log2 n - Z.log2 (Zpos d) - 1) <= n # d /\
  n # d < Qpower 2 (Z.log2 n - Z.log2 (Zpos d) + 1).
Proof.
  intros Hn.
  destruct (Z.log2_spec n Hn) as [Ha1 Ha2].
  destruct (Z.log2_spec (Zpos d) (Pos2Z.is_pos d)) as [Hb1 Hb2].
  pose proof (Z.log2_nonneg n) as Ha0.
  pose proof (Z.log2_nonneg (Zpos d)) as Hb0.
  set (a := Z.log2 n) in *. set (b := Z.log2 (Zpos d)) in *.
  assert (HA : (0 < 2 ^ a)%Z) by (apply Z.pow_pos_nonneg; lia).
  assert (HB : (0 < 2 ^ b)%Z) by (apply Z.pow_pos_nonneg; lia).
  assert (HA' : (0 < 2 ^ Z.succ a)%Z) by (apply Z.pow_pos_nonneg; lia).
  assert (HB' : (0 < 2 ^ Z.succ b)%Z) by (apply Z.pow_pos_nonneg; lia).
  rewrite (Qmake_Qdiv n d).
  split.
  - replace (a - b - 1)%Z with (a - Z.succ b)%Z by lia.
    rewrite Qpower_minus by discriminate.
    rewrite (pow2_Z a), (pow2_Z (Z.succ b)) by lia.
    apply Qdiv_le_cross; try (apply inject_Z_pos; lia).
    rewrite <- !inject_Z_mult, <- Zle_Qle. nia.
  - replace (a - b + 1)%Z with (Z.succ a - b)%Z by lia.
    rewrite Qpower_minus by discriminate.
    rewrite (pow2_Z (Z.succ a)), (pow2_Z b) by lia.
    apply Qdiv_lt_cross; try (apply inject_Z_pos; lia).
    rewrite <- !inject_Z_mult, <- Zlt_Qlt. nia.
Qed.

(** [ilog2] is the floor of the binary logarithm. *)
Lemma ilog2_spec (q : Q) :
  0 < q -> Qpower 2 (ilog2 q) <= q /\ q < Qpower 2 (ilog2 q + 1).
Proof.
  intros Hq. destruct q as [n d].
  assert (Hn : (0 < n)%Z) by (unfold Qlt in Hq; simpl in Hq; lia).
  destruct (log2_quotient n d Hn) as [Hlo Hhi].
  unfold ilog2. cbn [Qnum Qden].
  destruct (Qle_bool (Qpower 2 (Z.log2 n - Z.log2 (Zpos d))) (n # d)) eqn:E.
  - apply Qle_bool_iff in E. split; assumption.
  - split; [exact Hlo|].
    replace (Z.log2 n - Z.log2 (Zpos d) - 1 + 1)%Z
      with (Z.log2 n - Z.log2 (Zpos d))%Z by lia.
    apply Qnot_le_lt. intros H. apply Qle_bool_iff in H. congruence.
Qed.

Lemma ilog2_below (q : Q) (k : Z) : 0 < q -> q < Qpower 2 k -> (ilog2 q < k)%Z.
Proof.
  intros Hq Hk. destruct (ilog2_spec q Hq) as [Hlo _].
  apply (Qpower_lt_compat_l_inv 2); [|reflexivity].
  eapply Qle_lt_trans; eauto.
Qed.

(** [round_even] moves by half a unit at most. *)
Lemma round_even_near (y : Q) :
  y - (1 # 2) <= inject_Z (round_even y) <= y + (1 # 2).
Proof.
  pose proof (Qfloor_le y) as Hlo. pose proof (Qlt_floor y) as Hhi.
  rewrite inject_Z_plus in Hhi. change (inject_Z 1) with 1 in Hhi.
  unfold round_even.
  destruct (Qle_bool (y - inject_Z (Qfloor y)) (1 # 2)) eqn:E1.
  - apply Qle_bool_iff in E1.
    destruct (Qle_bool (1 # 2) (y - inject_Z (Qfloor y))) eqn:E2.
    + apply Qle_bool_iff in E2.
      destruct (Z.even (Qfloor y)).
      * lra.
      * rewrite inject_Z_plus. change (inject_Z 1) with 1. lra.
    + lra.
  - assert (H : (1 # 2) < y - inject_Z (Qfloor y)).
    { apply Qnot_le_lt. intros H. apply Qle_bool_iff in H. congruence. }
    rewrite inject_Z_plus. change (inject_Z 1) with 1. lra.
Qed.

Lemma round_even_nonneg (y : Q) : 0 <= y -> (0 <= round_even y)%Z.
Proof.
  intros Hy. assert (H0 : (0 <= Qfloor y)%Z).
  { change 0%Z with (Qfloor 0). now apply Qfloor_resp_le. }
  unfold round_even.
  destruct (Qle_bool _ _); [destruct (Qle_bool _ _); [destruct (Z.even _)|]|]; lia.
Qed.

(** Rounding a positive rational moves it by half the last mantissa bit at
    most. *)
Lemma round_pos_near (q : Q) :
  0 < q ->
  0 <= round_pos q /\
  q - Qpower 2 (ulp_exponent q) * (1 # 2) <= round_pos q
    <= q + Qpower 2 (ulp_exponent q) * (1 # 2).
Proof.
  intros Hq. unfold round_pos.
  pose proof (pow2_pos (ulp_exponent q)) as Hp.
  set (P := Qpower 2 (ulp_exponent q)) in *.
  pose proof (round_even_near (q / P)) as [Hlo Hhi].
  assert (Hy : 0 <= q / P).
  { apply Qle_shift_div_l; [exact Hp | lra]. }
  pose proof (round_even_nonneg (q / P) Hy) as Hm.
  rewrite Zle_Qle in Hm. change (inject_Z 0) with 0 in Hm.
  set (m := inject_Z (round_even (q / P))) in *.
  assert (Hq' : q == q / P * P) by (field; lra).
  split; [apply Qmult_le_0_compat; lra|].
  split.
  - assert (H : (q / P - (1 # 2)) * P <= m * P)
      by (apply Qmult_le_compat_r; lra).
    lra.
  - assert (H : m * P <= (q / P + (1 # 2)) * P)
      by (apply Qmult_le_compat_r; lra).
    lra.
Qed.

(** Below 128 the last mantissa bit is worth [2^-46] at most. *)
Lemma ulp_exponent_small (q : Q) : 0 < q -> q < 128 -> (ulp_exponent q <= -46)%Z.
Proof.
  intros H0 H1. unfold ulp_exponent.
  assert (ilog2 q < 7)%Z by (apply ilog2_below; [exact H0 | exact H1]).
  lia.
Qed.

(** The double nearest to a rational between 0 and 100 is finite, not
    negative, and within [2^-47] of it. *)
Lemma to_double_small (q : Q) :
  0 <= q -> q <= 100 ->
  exists d, to_double (Fin q) = Fin d /\ 0 <= d /\ q - double_error_128 <= d <= q + double_error_128.
Proof.
  intros H0 H1. unfold to_double.
  destruct (Qeq_bool q 0) eqn:Ez.
  - apply Qeq_bool_iff in Ez. exists 0. split; [reflexivity|].
    unfold double_error_128. split; [lra|]. rewrite Ez. split; unfold Qle; simpl; lia.
  - assert (Hq : 0 < q).
    { apply Qeq_bool_neq in Ez. apply Qnot_le_lt. intros H. apply Ez. lra. }
    assert (Hle : Qle_bool 0 q = true) by (apply Qle_bool_iff; lra).
    rewrite Hle.
    destruct (round_pos_near q Hq) as (Hnn & Hlo & Hhi).
    assert (He : (ulp_exponent q <= -46)%Z) by (apply ulp_exponent_small; lra).
    pose proof (pow2_le _ _ He) as Hp.
    pose proof (pow2_pos (ulp_exponent q)) as Hp0.
    assert (H46 : Qpower 2 (-46) * (1 # 2) == double_error_128) by reflexivity.
    assert (Hnear : q - double_error_128 <= round_pos q <= q + double_error_128) by (split; lra).
    destruct (Qle_bool (Qpower 2 1024) (round_pos q)) eqn:Eo.
    + exfalso. apply Qle_bool_iff in Eo.
      pose proof (pow2_le 7 1024 ltac:(lia)) as H7.
      change (Qpower 2 7) with 128 in H7.
      assert (double_error_128 <= 1) by (unfold double_error_128, Qle; simpl; lia).
      lra.
    + exists (round_pos q). split; [reflexivity|]. split; assumption.
Qed.

End DoubleFacts.

Module ConfidenceBarFacts.
Import JS ConfidenceBar.

Example pct_087 : pct (VString "0.87") = Fin (inject_Z 87).
Proof. vm_compute. reflexivity. Qed.
Example pct_text : pct (VString "high") = Fin (inject_Z 0).
Proof. vm_compute. reflexivity. Qed.
Example pct_neg : pct (VString "  -2.5e1") = Fin (inject_Z 0).
Proof. vm_compute. reflexivity. Qed.
Example pct_big : pct (VNumber PosInf) = Fin (inject_Z 100).
Proof. vm_compute. reflexivity. Qed.

Lemma Qfloor_unique (y : Q) (k : Z) :
  (inject_Z k <= y)%Q -> (y < inject_Z k + 1)%Q -> Qfloor y = k.
Proof.
  intros Hlo Hhi.
  pose proof (Qfloor_le y) as H1. pose proof (Qlt_floor y) as H2.
  rewrite inject_Z_plus in H2. change (inject_Z 1) with 1%Q in H2.
  assert (A : (inject_Z (Qfloor y) < inject_Z (k + 1))%Q)
    by (rewrite inject_Z_plus; change (inject_Z 1) with 1%Q; lra).
  assert (B : (inject_Z k < inject_Z (Qfloor y + 1))%Q)
    by (rewrite inject_Z_plus; change (inject_Z 1) with 1%Q; lra).
  rewrite <- Zlt_Qlt in A, B. lia.
Qed.

(** The clamped value of a finite input, by the position of the input with
    respect to the interval from 0 to 1. *)
Lemma clamped_finite (v : value_prop) (c : Q) :
  numeric v = Fin c ->
  clamped v = Fin 0 /\ (c <= 0)%Q \/
  clamped v = Fin 1 /\ (1 <= c)%Q \/
  clamped v = Fin c /\ (0 < c)%Q /\ (c < 1)%Q.
Proof.
  intros Hn. unfold clamped. rewrite Hn.
  cbn [isNaN Math_min Math_max lt].
  destruct (Qle_bool 1 c) eqn:E1; cbn [negb].
  - apply Qle_bool_iff in E1. right; left. split; [reflexivity | exact E1].
  - cbn [lt]. destruct (Qle_bool c 0) eqn:E0; cbn [negb].
    + apply Qle_bool_iff in E0. left. split; [reflexivity | exact E0].
    + right; right. split; [reflexivity|].
      split; apply Qnot_le_lt; intros H; apply Qle_bool_iff in H; congruence.
Qed.

(** The percentage the bar shows for a clamped value [q]: the double next
    to [100 q], rounded to an integer; both roundings move it by little. *)
Lemma pct_of_clamped (q : Q) :
  (0 <= q)%Q -> (q <= 1)%Q ->
  exists d : Q,
    to_double (Fin (q * 100)) = Fin d /\
    (0 <= d)%Q /\ (q * 100 - double_error_128 <= d)%Q /\
    (d <= q * 100 + double_error_128)%Q /\
    0 <= round_half_up d <= 100.
Proof.
  intros H0 H1.
  destruct (DoubleFacts.to_double_small (q * 100)) as (d & Ed & Hd0 & Hlo & Hhi);
    [lra | lra |].
  exists d. repeat split; try assumption.
  - unfold round_half_up. change 0 with (Qfloor (inject_Z 0)).
    apply Qfloor_resp_le. change (inject_Z 0) with 0%Q. lra.
  - unfold round_half_up.
    assert (Ht : (double_error_128 < 1 # 2)%Q) by reflexivity.
    assert (Hlt : (inject_Z (Qfloor (d + (1 # 2))) < inject_Z 101)%Q).
    { eapply Qle_lt_trans; [apply Qfloor_le|].
      change (inject_Z 101) with 101%Q. lra. }
    rewrite <- Zlt_Qlt in Hlt. lia.
Qed.

(** C7, as stated, fails on the code, whose product [clamped * 100] is a
    double.  For the number 0.015 (the double next to 15/1000, a little
    below it) the bar shows 2, since the product rounds to the double 1.5,
    while a hundred times the number is below 1.5 and rounds to 1.  For the
    string 0.285 the bar shows 28, since the string reads as the double below
    285/1000 and the product stays below 28.5, while [round (100 * 0.285)]
    is 29. *)
Lemma confidence_pct_rounding_counterexample :
  (exists c : Q,
     numeric (VNumber (to_double (Fin (15 # 1000)))) = Fin c /\
     (0 <= c)%Q /\ (c <= 1)%Q /\
     pct (VNumber (to_double (Fin (15 # 1000)))) = Fin (inject_Z 2) /\
     round_half_up (100 * c) = 1) /\
  (exists c : Q,
     decimal_value "0.285" = Fin c /\ (c == 285 # 1000)%Q /\
     pct (VString "0.285") = Fin (inject_Z 28) /\
     round_half_up (100 * c) = 29).
Proof.
  split.
  - eexists. split; [vm_compute; reflexivity|].
    repeat split; try (vm_compute; reflexivity); vm_compute; discriminate.
  - eexists. split; [vm_compute; reflexivity|].
    repeat split; vm_compute; reflexivity.
Qed.

(** C7 (amended): the displayed percentage is an integer between 0 and 100
    for every input; an input that reads as a number [c] between 0 and 1
    shows [round d], where [d] is the double next to [100 c], within [2^-47]
    of it: so the percentage is within 1 of [round (100 c)], and is
    [round (100 c)] whenever [100 c] is further than [2^-47] from the middle
    between two integers; an input that is not a number shows 0; an input
    below 0 shows 0 and an input above 1 shows 100. *)
Theorem confidence_pct_total_and_clamped (v : value_prop) :
  (exists k : Z, pct v = Fin (inject_Z k) /\ 0 <= k <= 100) /\
  (forall c : Q, numeric v = Fin c -> (0 <= c)%Q -> (c <= 1)%Q ->
     exists d : Q,
       to_double (Fin (c * 100)) = Fin d /\
       (Qabs (d - 100 * c) <= double_error_128)%Q /\
       pct v = Fin (inject_Z (round_half_up d)) /\
       Z.abs (round_half_up d - round_half_up (100 * c)) <= 1 /\
       (forall k : Z,
          (inject_Z k - (1 # 2) + double_error_128 <= 100 * c)%Q ->
          (100 * c < inject_Z k + (1 # 2) - double_error_128)%Q ->
          round_half_up d = k /\ round_half_up (100 * c) = k)) /\
  (numeric v = NaN -> pct v = Fin (inject_Z 0)) /\
  (numeric v = NegInf \/ (exists c, numeric v = Fin c /\ (c < 0)%Q) ->
     pct v = Fin (inject_Z 0)) /\
  (numeric v = PosInf \/ (exists c, numeric v = Fin c /\ (1 < c)%Q) ->
     pct v = Fin (inject_Z 100)).
Proof.
  assert (Hnan : numeric v = NaN -> pct v = Fin (inject_Z 0))
    by (intros Hn; unfold pct, clamped; rewrite Hn; vm_compute; reflexivity).
  assert (Hninf : numeric v = NegInf -> pct v = Fin (inject_Z 0))
    by (intros Hn; unfold pct, clamped; rewrite Hn; vm_compute; reflexivity).
  assert (Hpinf : numeric v = PosInf -> pct v = Fin (inject_Z 100))
    by (intros Hn; unfold pct, clamped; rewrite Hn; vm_compute; reflexivity).
  assert (Hlow : forall c, numeric v = Fin c -> (c <= 0)%Q ->
                   pct v = Fin (inject_Z 0)).
  { intros c Hn Hc.
    destruct (clamped_finite v c Hn) as [[E _] | [[_ H] | [_ [H _]]]];
      [|lra|lra].
    unfold pct. rewrite E. vm_compute. reflexivity. }
  assert (Hhigh : forall c, numeric v = Fin c -> (1 <= c)%Q ->
                    pct v = Fin (inject_Z 100)).
  { intros c Hn Hc.
    destruct (clamped_finite v c Hn) as [[_ H] | [[E _] | [_ [_ H]]]];
      [lra| |lra].
    unfold pct. rewrite E. vm_compute. reflexivity. }
  assert (Ht : (double_error_128 < 1 # 2)%Q) by reflexivity.
  assert (Ht0 : (0 < double_error_128)%Q) by reflexivity.
  split; [|split; [|split; [|split]]].
  - destruct (numeric v) as [| |c|] eqn:Hn.
    + exists 0. split; [auto | lia].
    + exists 0. split; [auto | lia].
    + destruct (clamped_finite v c Hn) as [[E Hc] | [[E Hc] | [E [H0 H1]]]].
      * exists 0. split; [eauto | lia].
      * exists 100. split; [eauto | lia].
      * destruct (pct_of_clamped c) as (d & Ed & _ & _ & _ & Hk); [lra | lra |].
        exists (round_half_up d). split; [|exact Hk].
        unfold pct. rewrite E. cbn [mul]. rewrite Ed. reflexivity.
    + exists 100. split; [auto | lia].
  - intros c Hn H0 H1.
    destruct (pct_of_clamped c H0 H1) as (d & Ed & Hd0 & Hlo & Hhi & Hk).
    exists d.
    assert (Hnear : forall k : Z,
              (inject_Z k - (1 # 2) + double_error_128 <= 100 * c)%Q ->
              (100 * c < inject_Z k + (1 # 2) - double_error_128)%Q ->
              round_half_up d = k /\ round_half_up (100 * c) = k).
    { intros k Hk1 Hk2. unfold round_half_up.
      split; apply Qfloor_unique; lra. }
    split; [exact Ed|]. split; [|split; [|split; [|exact Hnear]]].
    + apply Qabs_Qle_condition. split; lra.
    + destruct (clamped_finite v c Hn) as [[E Hc] | [[E Hc] | [E _]]].
      * rewrite (Hlow c Hn Hc). f_equal. f_equal. symmetry.
        apply (Hnear 0); change (inject_Z 0) with 0%Q; lra.
      * rewrite (Hhigh c Hn Hc). f_equal. f_equal. symmetry.
        apply (Hnear 100); change (inject_Z 100) with 100%Q; lra.
      * unfold pct. rewrite E. cbn [mul]. rewrite Ed. reflexivity.
    + unfold round_half_up.
      pose proof (Qfloor_le (d + (1 # 2))) as A1.
      pose proof (Qlt_floor (d + (1 # 2))) as A2.
      pose proof (Qfloor_le (100 * c + (1 # 2))) as B1.
      pose proof (Qlt_floor (100 * c + (1 # 2))) as B2.
      rewrite inject_Z_plus in A2, B2. change (inject_Z 1) with 1%Q in A2, B2.
      set (a := Qfloor (d + (1 # 2))) in *.
      set (b := Qfloor (100 * c + (1 # 2))) in *.
      assert (C1 : (inject_Z a < inject_Z (b + 2))%Q)
        by (rewrite inject_Z_plus; change (inject_Z 2) with 2%Q; lra).
      assert (C2 : (inject_Z b < inject_Z (a + 2))%Q)
        by (rewrite inject_Z_plus; change (inject_Z 2) with 2%Q; lra).
      rewrite <- Zlt_Qlt in C1, C2. lia.
  - exact Hnan.
  - intros [Hn | [c [Hn Hc]]]; [auto|]. apply (Hlow c Hn). lra.
  - intros [Hn | [c [Hn Hc]]]; [auto|]. apply (Hhigh c Hn). lra.
Qed.

End ConfidenceBarFacts.

Module PositionsTableFacts.
Import JS Types PositionsTable.

Section Sorting.
Context {A : Type} (cmp : A -> A -> Z).

Lemma insert_by_perm (x : A) (l : list A) :
  Permutation (x :: l) (insert_by cmp x l).
Proof.
  induction l as [|y r IH]; simpl.
  - apply Permutation_refl.
  - destruct (cmp x y <=? 0).
    + apply Permutation_refl.
    + eapply perm_trans; [apply perm_swap|]. now apply perm_skip.
Qed.

Lemma sort_by_perm (l : list A) : Permutation l (sort_by cmp l).
Proof.
  induction l as [|x r IH]; simpl.
  - apply perm_nil.
  - eapply perm_trans; [apply perm_skip, IH | apply insert_by_perm].
Qed.

End Sorting.

Lemma update_length h r v : List.length (update h r v) = List.length h.
Proof.
  revert r; induction h as [|x t IH]; intros [|r]; simpl; auto.
Qed.

Lemma update_same h r v : (r < List.length h)%nat -> nth r (update h r v) [] = v.
Proof.
  revert r; induction h as [|x t IH]; intros [|r]; simpl; intros H;
    try lia; auto. apply IH. lia.
Qed.

Lemma update_other h r r' v : r' <> r -> nth_error (update h r v) r' = nth_error h r'.
Proof.
  revert r r'; induction h as [|x t IH]; intros [|r] [|r']; simpl; intros H;
    try congruence; auto.
Qed.

Example sortPositions_by_weight :
  let h := [[sample "A" (Some "0.2"); sample "B" None; sample "C" (Some "1.5")]] in
  let (h', r) := sortPositions h 0%nat (mkSort K_weight_pct desc) in
  r = 1%nat /\
  map ticker (deref h' r) = [Some "C"; Some "A"; Some "B"] /\
  map ticker (deref h' 0%nat) = [Some "A"; Some "B"; Some "C"].
Proof. repeat split. Qed.

(** C10: [sortPositions] returns a new array, leaves every array that
    existed before the call (the input among them) as it was, and the array
    it returns is a permutation of the input; under a numeric sort key a
    field that does not parse as a number is compared as the number 0. *)
Theorem sortPositions_pure_reordering
    (h : store) (positions : ref) (sort : SortConfig SortKey) :
  (positions < List.length h)%nat ->
  let h' := fst (sortPositions h positions sort) in
  let out := snd (sortPositions h positions sort) in
  out <> positions /\
  nth_error h out = None /\
  (forall r, (r < List.length h)%nat -> nth_error h' r = nth_error h r) /\
  Permutation (deref h positions) (deref h' out) /\
  List.length (deref h' out) = List.length (deref h positions) /\
  (forall a, includes numericKeys (key sort) = true ->
     parseFloat (field_or_empty (key sort) a) = NaN ->
     sort_val sort a = SNum (Fin 0) /\
     forall z b, sort_val sort z = SNum (Fin 0) ->
       compareFn sort a b = compareFn sort z b /\
       compareFn sort b a = compareFn sort b z).
Proof.
  intros Hvalid. unfold sortPositions, spread, sort_in_place. cbn [fst snd].
  assert (Hlen : (List.length h < List.length (h ++ [deref h positions]))%nat)
    by (rewrite length_app; simpl; lia).
  assert (Hout : deref (update (h ++ [deref h positions]) (List.length h)
                          (sort_by (compareFn sort)
                             (deref (h ++ [deref h positions]) (List.length h))))
                       (List.length h)
                 = sort_by (compareFn sort) (deref h positions)).
  { unfold deref at 1. rewrite update_same by exact Hlen.
    unfold deref at 1. rewrite app_nth2 by lia.
    rewrite Nat.sub_diag. reflexivity. }
  repeat split.
  - lia.
  - apply nth_error_None. lia.
  - intros r Hr. rewrite update_other by lia.
    apply nth_error_app1. exact Hr.
  - rewrite Hout. apply sort_by_perm.
  - rewrite Hout. symmetry. apply Permutation_length, sort_by_perm.
  - unfold sort_val. rewrite H, H0. reflexivity.
  - assert (Ha : sort_val sort a = SNum (Fin 0))
      by (unfold sort_val; rewrite H, H0; reflexivity).
    unfold compareFn. rewrite Ha, H1. reflexivity.
  - assert (Ha : sort_val sort a = SNum (Fin 0))
      by (unfold sort_val; rewrite H, H0; reflexivity).
    unfold compareFn. rewrite Ha, H1. reflexivity.
Qed.

Lemma sortPositions_pure_reordering_witness :
  let h := [[sample "A" (Some "0.2"); sample "B" None; sample "C" (Some "1.5")]] in
  let h' := fst (sortPositions h 0%nat (mkSort K_weight_pct desc)) in
  let out := snd (sortPositions h 0%nat (mkSort K_weight_pct desc)) in
  nth_error h' 0%nat = nth_error h 0%nat /\
  Permutation (deref h 0%nat) (deref h' out) /\
  sort_val (mkSort K_weight_pct desc) (sample "B" None) = SNum (Fin 0).
Proof.
  cbv zeta.
  pose proof (sortPositions_pure_reordering
                [[sample "A" (Some "0.2"); sample "B" None; sample "C" (Some "1.5")]]
                0%nat (mkSort K_weight_pct desc) ltac:(simpl; lia))
    as (_ & _ & Hkeep & Hperm & _ & Hnan).
  split; [apply Hkeep; simpl; lia | split; [exact Hperm|]].
  apply (Hnan (sample "B" None)); reflexivity.
Defined.

End PositionsTableFacts.

Module ApiClientFacts.
Import ApiClient.

Example error_message_nested :
  apiFetch (mkResponse 409 "Conflict"
              (Some (JObj [("error", JObj [("message", JStr "Pipeline already running")])])))
  = Rejected (Error "Pipeline already running").
Proof. reflexivity. Qed.

Example error_message_detail :
  apiFetch (mkResponse 422 "Unprocessable Entity"
              (Some (JObj [("detail", JArr [JObj [("loc", JStr "body")]; JNum 3])])))
  = Rejected (Error ("[{" ++ quote ++ "loc" ++ quote ++ ":"
                          ++ quote ++ "body" ++ quote ++ "},3]")).
Proof. reflexivity. Qed.

Example error_message_fallback :
  apiFetch (mkResponse 502 "Bad Gateway" None)
  = Rejected (Error "HTTP 502: Bad Gateway").
Proof. reflexivity. Qed.

Lemma error_message_eq (r : Response) :
  error_message r =
  let m := get (get (body r) "error") "message" in
  let d := get (body r) "detail" in
  if is_truthy m then
    match m with Some v => toString v | None => http_message r end
  else if is_truthy d then
    match d with
    | Some (JStr t) => t
    | Some v => JSON_stringify v
    | None => http_message r
    end
  else http_message r.
Proof.
  unfold error_message. destruct (body r); reflexivity.
Qed.

(** C8, as stated, fails: a 204 response (any 2xx response whose body is
    not JSON) is ok, yet [apiFetch] returns no value for it. *)
Lemma apiFetch_ok_without_json_counterexample :
  let r := mkResponse 204 "No Content" None in
  ok r = true /\ ~ (exists v, apiFetch r = Resolved v).
Proof.
  cbv zeta. split; [reflexivity|].
  intros [v H]. discriminate H.
Qed.

(** C8 (amended): [apiFetch] returns a value exactly when the status is 2xx
    and the body parses as JSON, and the value is the parsed body; a 2xx
    response whose body is not JSON makes it throw the parser's error; every
    response that is not 2xx makes it throw an [Error] whose message is
    [body.error.message] when that is truthy, else [body.detail] when that is
    truthy (as it is when a string, through [JSON.stringify] otherwise), else
    ["HTTP <status>: <statusText>"].  So a failed request never yields a
    value. *)
Theorem apiFetch_resolves_iff_ok_json (r : Response) :
  (forall v, apiFetch r = Resolved v <-> ok r = true /\ body r = Some v) /\
  (ok r = true -> body r = None -> apiFetch r = Rejected SyntaxError) /\
  (ok r = false ->
   exists msg, apiFetch r = Rejected (Error msg) /\
     (forall m, get (get (body r) "error") "message" = Some m ->
        is_truthy (Some m) = true -> msg = toString m) /\
     (is_truthy (get (get (body r) "error") "message") = false ->
      forall d, get (body r) "detail" = Some d -> is_truthy (Some d) = true ->
        msg = match d with JStr t => t | _ => JSON_stringify d end) /\
     (is_truthy (get (get (body r) "error") "message") = false ->
      is_truthy (get (body r) "detail") = false ->
      msg = ("HTTP " ++ show_Z (status r) ++ ": " ++ statusText r)%string)).
Proof.
  unfold apiFetch. split; [|split].
  - intros v. destruct (ok r); simpl.
    + destruct (body r) as [b|]; split.
      * intros H. injection H as ->. auto.
      * intros [_ H]. injection H as ->. reflexivity.
      * discriminate.
      * intros [_ H]. discriminate.
    + split; [discriminate | intros [H _]; discriminate].
  - intros -> ->. reflexivity.
  - intros ->. cbn [negb]. eexists. split; [reflexivity|].
    rewrite error_message_eq. unfold http_message.
    generalize (get (get (body r) "error") "message") as m.
    generalize (get (body r) "detail") as d.
    intros d m. cbv zeta. split; [|split].
    + intros m' -> Hm. rewrite Hm. reflexivity.
    + intros Hm d' -> Hd. rewrite Hm, Hd. destruct d'; reflexivity.
    + intros Hm Hd. rewrite Hm, Hd. reflexivity.
Qed.

Lemma apiFetch_resolves_iff_ok_json_witness :
  apiFetch (mkResponse 200 "OK" (Some (JObj [("message", JStr "started")])))
    = Resolved (JObj [("message", JStr "started")]) /\
  apiFetch (mkResponse 204 "No Content" None) = Rejected SyntaxError /\
  exists msg, apiFetch (mkResponse 404 "Not Found" (Some (JObj [("detail", JStr "Run not found")])))
              = Rejected (Error msg) /\ msg = "Run not found".
Proof.
  split; [|split].
  - apply (apiFetch_resolves_iff_ok_json
             (mkResponse 200 "OK" (Some (JObj [("message", JStr "started")])))).
    split; reflexivity.
  - apply (apiFetch_resolves_iff_ok_json (mkResponse 204 "No Content" None));
      reflexivity.
  - destruct (apiFetch_resolves_iff_ok_json
                (mkResponse 404 "Not Found"
                   (Some (JObj [("detail", JStr "Run not found")]))))
      as (_ & _ & H).
    destruct (H eq_refl) as (msg & Hthrow & _ & Hdetail & _).
    exists msg. split; [exact Hthrow|].
    apply (Hdetail eq_refl (JStr "Run not found")); reflexivity.
Defined.

End ApiClientFacts.

Module TradesPageFacts.
Import TradesPage.

(** C5 does not hold of the page: the status the data model calls FILLED is
    neither a filter option nor a styled status (the page has EXECUTED in its
    place), so a FILLED trade is drawn with the fallback style, the one of
    CANCELLED. *)
Theorem trades_status_domain_misses_filled :
  filter_statuses = ["EXECUTED"; "PENDING"; "FAILED"; "CANCELLED"] /\
  styled_statuses = ["EXECUTED"; "PENDING"; "FAILED"; "CANCELLED"] /\
  In "FILLED" spec_trade_statuses /\
  ~ In "FILLED" filter_statuses /\
  ~ In "FILLED" styled_statuses /\
  ~ In "EXECUTED" spec_trade_statuses /\
  statusBadge "FILLED" = statusBadge "CANCELLED" /\
  statusBadge "FILLED" <> statusBadge "EXECUTED".
Proof.
  repeat split; try reflexivity.
  - simpl. auto.
  - simpl. intros H. repeat (destruct H as [H | H]; [discriminate H|]). exact H.
  - simpl. intros H. repeat (destruct H as [H | H]; [discriminate H|]). exact H.
  - simpl. intros H. repeat (destruct H as [H | H]; [discriminate H|]). exact H.
  - discriminate.
Qed.

End TradesPageFacts.

Module TypesFacts.
Import Types.

Lemma as_PipelineStatus_sound (s : string) (l : PipelineStatusLiteral) :
  as_PipelineStatus s = Some l <-> literal_text l = s.
Proof.
  unfold as_PipelineStatus. split.
  - destruct (String.eqb_spec s "RUNNING") as [->|_];
      [intros H; injection H as <-; reflexivity|].
    destruct (String.eqb_spec s "SUCCESS") as [->|_];
      [intros H; injection H as <-; reflexivity|].
    destruct (String.eqb_spec s "FAILED") as [->|_];
      [intros H; injection H as <-; reflexivity|].
    discriminate.
  - intros <-. destruct l; reflexivity.
Qed.

(** C6, as stated, fails on the type: PARTIAL_FAILURE is a status of the
    data model and no member of [PipelineStatus], so the non-null values of
    the type are not the four statuses of the data model. *)
Lemma pipeline_status_partial_failure_counterexample :
  In "PARTIAL_FAILURE" spec_pipeline_statuses /\
  as_PipelineStatus "PARTIAL_FAILURE" = None /\
  (forall l, literal_text l <> "PARTIAL_FAILURE") /\
  ~ (forall s, (exists l, literal_text l = s) <-> In s spec_pipeline_statuses).
Proof.
  assert (Hno : forall l, literal_text l <> "PARTIAL_FAILURE")
    by (intros l; destruct l; discriminate).
  repeat split.
  - simpl. auto 6.
  - exact Hno.
  - intros H. destruct (proj2 (H "PARTIAL_FAILURE")) as [l Hl].
    + simpl. auto 6.
    + exact (Hno l Hl).
Qed.

(** C6 (amended): the non-null values of [PipelineStatus] are exactly
    RUNNING, SUCCESS and FAILED: every status of the data model other than
    PARTIAL_FAILURE is a value of the type, and PARTIAL_FAILURE is not.  The
    status of a run reaches the sidebar in the field [status] of the status
    response, a string or null, where each of the four statuses is a value;
    the sidebar's badge draws each of them, the three of the type with their
    own label and PARTIAL_FAILURE in grey under its own name. *)
Theorem pipeline_status_values :
  (forall s, (exists l, literal_text l = s) <-> In s ["RUNNING"; "SUCCESS"; "FAILED"]) /\
  (forall s, In s spec_pipeline_statuses ->
     (exists l, literal_text l = s) <-> s <> "PARTIAL_FAILURE") /\
  (forall s last,
     In s spec_pipeline_statuses ->
     Sidebar.status (Sidebar.mkStatusResponse (Some s) last) = Some s /\
     exists badge,
       Sidebar.PipelineStatusBadge (Some s) = Some badge /\
       Sidebar.label badge =
         match as_PipelineStatus s with
         | Some RUNNING => "Running"
         | Some SUCCESS => "Success"
         | Some FAILED => "Failed"
         | None => s
         end).
Proof.
  split; [|split].
  - intros s. split.
    + intros [l <-]. destruct l; simpl; auto.
    + simpl. intros [<- | [<- | [<- | []]]];
        [exists RUNNING | exists SUCCESS | exists FAILED]; reflexivity.
  - intros s Hin. simpl in Hin.
    destruct Hin as [<- | [<- | [<- | [<- | []]]]]; split;
      try discriminate; try congruence;
      try (intros _; first [exists RUNNING; reflexivity
                           | exists SUCCESS; reflexivity
                           | exists FAILED; reflexivity]);
      intros [l Hl]; destruct l; discriminate Hl.
  - intros s last Hin. split; [reflexivity|]. simpl in Hin.
    destruct Hin as [<- | [<- | [<- | [<- | []]]]];
      eexists; split; reflexivity.
Qed.

End TypesFacts.

Module BacktestPageFacts.
Import JS BacktestPage.

Example getTime_epoch : Date_getTime "1970-01-01" = Fin (inject_Z 0).
Proof. reflexivity. Qed.
Example getTime_2024 : Date_getTime "2024-03-01" = Fin (inject_Z 1709251200000).
Proof. reflexivity. Qed.
Example getTime_invalid : Date_getTime "2023-02-30" = NaN.
Proof. reflexivity. Qed.

Example validate_one_year :
  fst (validate "2026-11-01" (filled "2024-01-01" "2025-01-01" 50000)) = true.
Proof. reflexivity. Qed.
Example validate_future :
  formError (snd (validate "2026-11-01" (filled "2024-01-01" "2027-01-01" 50000)))
  = Some "End date cannot be in the future".
Proof. reflexivity. Qed.

Lemma digit_of_range c a : digit_of c = Some a -> 0 <= a <= 9.
Proof.
  unfold digit_of.
  destruct ((48 <=? N_of_ascii c) && (N_of_ascii c <=? 57))%N eqn:E; [|discriminate].
  intros H. injection H as <-.
  apply andb_true_iff in E. destruct E as [E1 E2].
  apply N.leb_le in E1, E2. lia.
Qed.

Lemma digit_of_compare c c' a a' :
  digit_of c = Some a -> digit_of c' = Some a' ->
  Ascii.compare c c' = (a ?= a').
Proof.
  unfold digit_of, Ascii.compare.
  destruct ((48 <=? N_of_ascii c) && (N_of_ascii c <=? 57))%N; [|discriminate].
  destruct ((48 <=? N_of_ascii c') && (N_of_ascii c' <=? 57))%N; [|discriminate].
  intros H H'. injection H as <-. injection H' as <-.
  rewrite <- N2Z.inj_compare.
  destruct (Z.compare_spec (Z.of_N (N_of_ascii c)) (Z.of_N (N_of_ascii c')));
    symmetry; [apply Z.compare_eq_iff | apply Z.compare_lt_iff | apply Z.compare_gt_iff];
    lia.
Qed.

(** Two decimal digits compare as the number they write. *)
Lemma two_digits_compare a b a' b' :
  0 <= b <= 9 -> 0 <= b' <= 9 ->
  (10 * a + b ?= 10 * a' + b') =
  match a ?= a' with Eq => b ?= b' | o => o end.
Proof.
  intros Hb Hb'.
  destruct (Z.compare_spec a a') as [-> | H | H].
  - destruct (Z.compare_spec b b');
      [apply Z.compare_eq_iff | apply Z.compare_lt_iff | apply Z.compare_gt_iff]; lia.
  - apply Z.compare_lt_iff. lia.
  - apply Z.compare_gt_iff. lia.
Qed.

Lemma four_digits_compare a b c d a' b' c' d' :
  0 <= b <= 9 -> 0 <= b' <= 9 -> 0 <= c <= 9 -> 0 <= c' <= 9 ->
  0 <= d <= 9 -> 0 <= d' <= 9 ->
  (1000 * a + 100 * b + 10 * c + d ?= 1000 * a' + 100 * b' + 10 * c' + d') =
  match a ?= a' with
  | Eq => match b ?= b' with
          | Eq => match c ?= c' with Eq => d ?= d' | o => o end
          | o => o
          end
  | o => o
  end.
Proof.
  intros.
  replace (1000 * a + 100 * b + 10 * c + d)
    with (10 * (10 * (10 * a + b) + c) + d) by ring.
  replace (1000 * a' + 100 * b' + 10 * c' + d')
    with (10 * (10 * (10 * a' + b') + c') + d') by ring.
  rewrite !two_digits_compare by assumption.
  destruct (a ?= a'), (b ?= b'), (c ?= c'); reflexivity.
Qed.

Lemma parse_date_inv (s : string) (a : Z * Z * Z) :
  parse_date s = Some a -> date_text s a.
Proof.
  unfold parse_date.
  destruct s as [|c3 [|c2 [|c1 [|c0 [|s1 [|e1 [|e0 [|s2 [|f1 [|f0 [|x s]]]]]]]]]]];
    try discriminate.
  destruct (Ascii.eqb s1 "-" && Ascii.eqb s2 "-")%bool eqn:Es; [|discriminate].
  apply andb_true_iff in Es. destruct Es as [Es1 Es2].
  apply Ascii.eqb_eq in Es1, Es2. subst s1 s2.
  destruct (digit_of c3) eqn:D3; [|discriminate].
  destruct (digit_of c2) eqn:D2; [|discriminate].
  destruct (digit_of c1) eqn:D1; [|discriminate].
  destruct (digit_of c0) eqn:D0; [|discriminate].
  destruct (digit_of e1) eqn:E1; [|discriminate].
  destruct (digit_of e0) eqn:E0; [|discriminate].
  destruct (digit_of f1) eqn:F1; [|discriminate].
  destruct (digit_of f0) eqn:F0; [|discriminate].
  intros H. injection H as <-. now constructor.
Qed.

Lemma parse_date_compare (s t : string) (a b : Z * Z * Z) :
  parse_date s = Some a -> parse_date t = Some b ->
  String.compare s t = civil_compare a b.
Proof.
  intros Hs Ht. apply parse_date_inv in Hs, Ht.
  destruct Hs as [c3 c2 c1 c0 e1 e0 f1 f0 y3 y2 y1 y0 m1 m0 d1 d0
                    D3 D2 D1 D0 E1 E0 F1 F0].
  destruct Ht as [c3' c2' c1' c0' e1' e0' f1' f0' y3' y2' y1' y0' m1' m0' d1' d0'
                    D3' D2' D1' D0' E1' E0' F1' F0'].
  unfold civil_compare.
  rewrite four_digits_compare by (eapply digit_of_range; eassumption).
  rewrite !two_digits_compare by (eapply digit_of_range; eassumption).
  cbn [String.compare].
  rewrite (digit_of_compare _ _ _ _ D3 D3'), (digit_of_compare _ _ _ _ D2 D2'),
          (digit_of_compare _ _ _ _ D1 D1'), (digit_of_compare _ _ _ _ D0 D0'),
          (digit_of_compare _ _ _ _ E1 E1'), (digit_of_compare _ _ _ _ E0 E0'),
          (digit_of_compare _ _ _ _ F1 F1'), (digit_of_compare _ _ _ _ F0 F0').
  change (Ascii.compare "-" "-") with Eq.
  destruct (y3 ?= y3'), (y2 ?= y2'), (y1 ?= y1'), (y0 ?= y0'),
           (m1 ?= m1'), (m0 ?= m0'), (d1 ?= d1'), (d0 ?= d0'); reflexivity.
Qed.

Lemma civil_compare_antisym (s t : string) (a b : Z * Z * Z) :
  parse_date s = Some a -> parse_date t = Some b ->
  civil_compare b a = CompOpp (civil_compare a b).
Proof.
  intros Hs Ht.
  rewrite <- (parse_date_compare t s b a Ht Hs),
          <- (parse_date_compare s t a b Hs Ht).
  apply String.compare_antisym.
Qed.

Lemma parse_date_truthy (s : string) (a : Z * Z * Z) :
  parse_date s = Some a -> str_truthy s = true.
Proof. intros H. apply parse_date_inv in H. destruct H. reflexivity. Qed.

Lemma year_range_le (D1 D2 : Z) :
  Qle_bool ((inject_Z (D2 * ms_per_day) - inject_Z (D1 * ms_per_day))
            / inject_Z (1000 * 60 * 60 * 24 * 365)) 5
  = (D2 - D1 <=? 5 * 365).
Proof.
  apply eq_true_iff_eq. rewrite Qle_bool_iff, Z.leb_le.
  unfold Qle, Qdiv, Qminus, Qplus, Qopp, Qmult, Qinv, inject_Z, ms_per_day.
  simpl. lia.
Qed.

(** [validate] on a form whose two dates are dates, on a day whose text is a
    date, with a finite capital: it accepts exactly when the start is before
    the end, the end is not after today, the range has at most [5 * 365]
    days and the capital is positive; and [handleSubmit] sends the trigger
    request, with the form's values, exactly when [validate] accepts. *)
Theorem validate_accepts_iff
    (today : string) (s : PageState) (y1 m1 d1 y2 m2 d2 : Z) (dt : Z * Z * Z) (c : Q) :
  parse_date (startDate s) = Some (y1, m1, d1) -> valid_date y1 m1 d1 = true ->
  parse_date (endDate s) = Some (y2, m2, d2) -> valid_date y2 m2 d2 = true ->
  parse_date today = Some dt ->
  initialCapital s = Fin c ->
  (fst (validate today s) = true <->
     civil_compare (y1, m1, d1) (y2, m2, d2) = Lt /\
     civil_compare (y2, m2, d2) dt <> Gt /\
     days_from_civil y2 m2 d2 - days_from_civil y1 m1 d1 <= 5 * 365 /\
     (0 < c)%Q) /\
  (fst (validate today s) = true ->
     snd (handleSubmit today s)
     = [TriggerBacktest (mkRequest (startDate s) (endDate s) (initialCapital s))]) /\
  (fst (validate today s) = false -> snd (handleSubmit today s) = []).
Proof.
  intros Hs Hvs He Hve Ht Hc.
  assert (Hsubmit : snd (handleSubmit today s)
                    = if fst (validate today s)
                      then [TriggerBacktest (mkRequest (startDate s) (endDate s)
                                                       (initialCapital s))]
                      else []).
  { unfold handleSubmit. destruct (validate today s) as [[] s1]; reflexivity. }
  split; [|split; intros Hv; rewrite Hsubmit, Hv; reflexivity].
  unfold validate.
  rewrite (parse_date_truthy _ _ Hs), (parse_date_truthy _ _ He).
  cbn [negb orb].
  unfold str_ge, str_gt, String.ltb.
  rewrite (parse_date_compare _ _ _ _ Hs He).
  rewrite (parse_date_compare _ _ _ _ Ht He).
  rewrite (civil_compare_antisym _ _ _ _ He Ht).
  unfold Date_getTime. rewrite Hs, He, Hvs, Hve, Hc.
  unfold ms_per_year. cbn [sub div gt lt le].
  change (Qeq_bool (inject_Z (1000 * 60 * 60 * 24 * 365)) 0) with false.
  cbv iota. rewrite year_range_le.
  destruct (civil_compare (y1, m1, d1) (y2, m2, d2)) eqn:E1; cbn [negb fst];
    try (split; [discriminate | intros [H _]; discriminate H]).
  destruct (civil_compare (y2, m2, d2) dt) eqn:E2; cbn [CompOpp negb fst];
    try (split; [discriminate | intros (_ & H & _); congruence]).
  - destruct (days_from_civil y2 m2 d2 - days_from_civil y1 m1 d1 <=? 5 * 365) eqn:E3;
      cbn [negb fst].
    + apply Z.leb_le in E3. rewrite negb_involutive.
      destruct (Qle_bool c 0) eqn:E4; cbn [fst].
      * apply Qle_bool_iff in E4.
        split; [discriminate | intros (_ & _ & _ & H); lra].
      * split; [intros _|reflexivity].
        repeat split; try discriminate; try assumption.
        apply Qnot_le_lt. intros H. apply Qle_bool_iff in H. congruence.
    + apply Z.leb_gt in E3.
      split; [discriminate | intros (_ & _ & H & _); lia].
  - destruct (days_from_civil y2 m2 d2 - days_from_civil y1 m1 d1 <=? 5 * 365) eqn:E3;
      cbn [negb fst].
    + apply Z.leb_le in E3. rewrite negb_involutive.
      destruct (Qle_bool c 0) eqn:E4; cbn [fst].
      * apply Qle_bool_iff in E4.
        split; [discriminate | intros (_ & _ & _ & H); lra].
      * split; [intros _|reflexivity].
        repeat split; try discriminate; try assumption.
        apply Qnot_le_lt. intros H. apply Qle_bool_iff in H. congruence.
    + apply Z.leb_gt in E3.
      split; [discriminate | intros (_ & _ & H & _); lia].
Qed.

Lemma validate_accepts_iff_witness :
  fst (validate "2026-11-01" (filled "2024-01-01" "2025-01-01" 50000)) = true /\
  snd (handleSubmit "2026-11-01" (filled "2024-01-01" "2025-01-01" 50000))
  = [TriggerBacktest (mkRequest "2024-01-01" "2025-01-01" (Fin 50000))].
Proof.
  destruct (validate_accepts_iff "2026-11-01"
              (filled "2024-01-01" "2025-01-01" 50000)
              2024 1 1 2025 1 1 (2026, 11, 1) 50000
              eq_refl eq_refl eq_refl eq_refl eq_refl eq_refl)
    as (Hiff & Hsend & _).
  assert (Hv : fst (validate "2026-11-01" (filled "2024-01-01" "2025-01-01" 50000))
               = true).
  { apply Hiff. repeat split; discriminate. }
  split; [exact Hv | exact (Hsend Hv)].
Defined.

(** C3 does not hold of [validate]: a range of exactly five calendar years,
    1 January 2019 to 1 January 2024, with both dates set, the start before
    the end, the end not after today and a positive capital, is rejected with
    "Date range cannot exceed 5 years" and no request is sent, because the
    range is measured in years of 365 days and this one has 1826 days. *)
Theorem validate_rejects_five_calendar_years :
  let today := "2026-11-01" in
  let s := filled "2019-01-01" "2024-01-01" 50000 in
  str_truthy (startDate s) = true /\ str_truthy (endDate s) = true /\
  day_number (startDate s) < day_number (endDate s) /\
  day_number (endDate s) <= day_number today /\
  span_at_most_years 5 (startDate s) (endDate s) = true /\
  day_number (endDate s) - day_number (startDate s) = 1826 /\
  JS.gt (initialCapital s) (Fin 0) = true /\
  submit_disabled s = false /\
  fst (validate today s) = false /\
  formError (snd (validate today s)) = Some "Date range cannot exceed 5 years" /\
  snd (step today s Submit) = [].
Proof.
  cbv zeta. repeat split; vm_compute; congruence.
Qed.

Lemma active_isRunning (s : PageState) (r : BacktestProgressResponse) :
  progress s = Some r -> active r = true -> isRunning s = true.
Proof.
  intros Hp Ha. unfold isRunning, status_is. rewrite Hp. exact Ha.
Qed.

(** While the page holds the report of an active run, an event that brings
    no report leaves that report in place and sends no trigger. *)
Lemma step_keeps_active (today : string) (s : PageState)
    (r : BacktestProgressResponse) (e : event) :
  progress s = Some r -> active r = true -> response_of e = None ->
  progress (fst (step today s e)) = Some r /\
  triggers (snd (step today s e)) = 0%nat.
Proof.
  intros Hp Ha He.
  destruct e as [v|v|v| |[res|m]| |[res|m]]; cbn [step response_of] in *;
    try discriminate He; try (split; [exact Hp | reflexivity]).
  - unfold submit_disabled. rewrite (active_isRunning s r Hp Ha), orb_true_r.
    split; [exact Hp | reflexivity].
  - destruct (pollRef s); split; try exact Hp; reflexivity.
Qed.

Lemma run_keeps_active (today : string) (es : list event) :
  forall (s : PageState) (r : BacktestProgressResponse),
  progress s = Some r -> active r = true ->
  Forall (fun e => response_of e = None) es ->
  progress (fst (run today s es)) = Some r /\
  triggers (snd (run today s es)) = 0%nat.
Proof.
  induction es as [|e es IH]; intros s r Hp Ha Hall; cbn [run].
  - split; [exact Hp | reflexivity].
  - inversion Hall as [|? ? He Hes]; subst.
    destruct (step_keeps_active today s r e Hp Ha He) as [Hp1 Ht1].
    destruct (step today s e) as [s1 out1]. cbn [fst snd] in *.
    destruct (IH s1 r Hp1 Ha Hes) as [Hp2 Ht2].
    destruct (run today s1 es) as [s2 out2]. cbn [fst snd] in *.
    split; [exact Hp2|].
    unfold triggers in *. rewrite filter_app, length_app. lia.
Qed.

Lemma last_response_none (es : list event) :
  last_response es = None -> Forall (fun e => response_of e = None) es.
Proof.
  induction es as [|e es IH]; cbn [last_response]; intros H; [constructor|].
  destruct (last_response es); [discriminate H|].
  constructor; [exact H | apply IH; reflexivity].
Qed.

(** A report the page receives becomes its [progress]. *)
Lemma step_takes_response (today : string) (s : PageState)
    (r : BacktestProgressResponse) (e : event) :
  response_of e = Some r -> progress (fst (step today s e)) = Some r.
Proof.
  destruct e as [v|v|v| |[res|m]| |[res|m]]; cbn [step response_of];
    try discriminate; intros H; injection H as ->; cbn [fst].
  - reflexivity.
  - unfold poll_resume.
    destruct (negb (String.eqb (status r) "RUNNING")
              && negb (String.eqb (status r) "PENDING")); reflexivity.
Qed.

Lemma run_holds_last_response (today : string) (es : list event) :
  forall (s0 : PageState) (r : BacktestProgressResponse),
  last_response es = Some r -> active r = true ->
  progress (fst (run today s0 es)) = Some r.
Proof.
  induction es as [|e es IH]; intros s0 r Hl Ha; cbn [last_response run] in *;
    [discriminate Hl|].
  destruct (last_response es) as [x|] eqn:El.
  - injection Hl as ->.
    destruct (step today s0 e) as [s1 out1].
    specialize (IH s1 r eq_refl Ha).
    destruct (run today s1 es) as [s2 out2]. exact IH.
  - pose proof (step_takes_response today s0 r e Hl) as Hp1.
    destruct (step today s0 e) as [s1 out1]. cbn [fst] in Hp1.
    destruct (run_keeps_active today es s1 r Hp1 Ha (last_response_none es El))
      as [Hp2 _].
    destruct (run today s1 es) as [s2 out2]. exact Hp2.
Qed.

(** C4: along every run of the page, from any state, when the last status
    the page was told, by a poll or by the answer to the trigger, is RUNNING
    or PENDING, the page holds that report, the submit button is disabled, a
    submit sends nothing, and no later event sends a backtest trigger until
    the next report arrives. *)
Theorem single_flight_while_running
    (today : string) (s0 : PageState) (es : list event)
    (r : BacktestProgressResponse) :
  last_response es = Some r ->
  status r = "RUNNING" \/ status r = "PENDING" ->
  let s := fst (run today s0 es) in
  progress s = Some r /\
  submit_disabled s = true /\
  step today s Submit = (s, []) /\
  (forall later,
     Forall (fun e => response_of e = None) later ->
     triggers (snd (run today s later)) = 0%nat /\
     submit_disabled (fst (run today s later)) = true).
Proof.
  intros Hl Hst. cbv zeta.
  assert (Ha : active r = true).
  { unfold active. destruct Hst as [-> | ->]; reflexivity. }
  pose proof (run_holds_last_response today es s0 r Hl Ha) as Hp.
  set (s := fst (run today s0 es)) in *.
  assert (Hdis : forall s', progress s' = Some r -> submit_disabled s' = true).
  { intros s' Hp'. unfold submit_disabled.
    rewrite (active_isRunning s' r Hp' Ha). apply orb_true_r. }
  split; [exact Hp|]. split; [exact (Hdis s Hp)|]. split.
  - cbn [step]. rewrite (Hdis s Hp). reflexivity.
  - intros later Hall.
    destruct (run_keeps_active today later s r Hp Ha Hall) as [Hp2 Ht].
    split; [exact Ht | exact (Hdis _ Hp2)].
Qed.

Lemma single_flight_while_running_witness :
  submit_disabled (fst (run "2026-11-01" initial_state sample_visit)) = true /\
  triggers (snd (run "2026-11-01"
                   (fst (run "2026-11-01" initial_state sample_visit))
                   [Submit; PollTick; ChangeEndDate "2025-02-01"; Submit]))
  = 0%nat.
Proof.
  destruct (single_flight_while_running "2026-11-01" initial_state sample_visit
              (mkProgress "run-1" "RUNNING" 3 250 [])
              eq_refl (or_introl eq_refl))
    as (_ & Hdis & _ & Hlater).
  split; [exact Hdis|].
  apply Hlater. repeat constructor.
Defined.

Lemma validate_keeps_loading today s : loading (snd (validate today s)) = loading s.
Proof.
  unfold validate.
  repeat match goal with |- context [if ?b then _ else _] => destruct b end;
    reflexivity.
Qed.

Lemma step_triggers today s e :
  let (s', out) := step today s e in
  (triggers out <= 1)%nat /\
  (triggers out = 1%nat -> loading s = false /\ loading s' = true) /\
  (triggers out = 0%nat ->
   loading s' = if is_trigger_settled e then false else loading s).
Proof.
  destruct e; simpl; try (repeat split; auto; discriminate).
  - unfold submit_disabled.
    destruct (loading s) eqn:El; simpl; [rewrite El; repeat split; auto; discriminate|].
    destruct (isRunning s); simpl; [rewrite El; repeat split; auto; discriminate|].
    unfold handleSubmit.
    pose proof (validate_keeps_loading today s) as Hk.
    destruct (validate today s) as [[] s1]; simpl in *.
    + repeat split; auto. discriminate.
    + rewrite Hk, El. repeat split; auto. discriminate.
  - destruct r; simpl; repeat split; auto; discriminate.
  - destruct (pollRef s); simpl; repeat split; auto; discriminate.
  - destruct r; simpl; [|repeat split; auto; discriminate].
    destruct (negb (String.eqb (status result) "RUNNING")
              && negb (String.eqb (status result) "PENDING"));
      simpl; repeat split; auto; discriminate.
Qed.

(** No second trigger while one is in flight: along every run of the page,
    the trigger requests sent are at most the trigger requests that have
    settled, plus one when the run starts with none in flight. *)
Theorem at_most_one_trigger_in_flight (today : string) (es : list event) :
  forall s,
  (triggers (snd (run today s es))
   <= (if loading s then 0 else 1) + settled_triggers es)%nat.
Proof.
  induction es as [|e es IH]; intros s; simpl.
  - unfold triggers, settled_triggers. destruct (loading s); simpl; lia.
  - pose proof (step_triggers today s e) as Hstep.
    destruct (step today s e) as [s1 out1].
    specialize (IH s1). destruct (run today s1 es) as [s2 out2].
    simpl in *. unfold triggers in *. rewrite filter_app, length_app.
    destruct Hstep as (Hle & Hone & Hzero).
    unfold settled_triggers in *. simpl.
    destruct (List.length (filter is_trigger out1)) as [|[|n]] eqn:En; [| |lia].
    + specialize (Hzero eq_refl). rewrite Hzero in IH.
      destruct (is_trigger_settled e); simpl in *; [|lia].
      destruct (loading s); lia.
    + destruct (Hone eq_refl) as [Hs Hs1]. rewrite Hs1 in IH. rewrite Hs.
      destruct (is_trigger_settled e); simpl in *; lia.
Qed.

End BacktestPageFacts.

Module RiskEngineFacts.
Import Types RiskEngine.
Local Open Scope Q_scope.

Example scenario_below_minimum :
  let v := validate_recommendations
             [mkProposal "AAA" BUY (9 # 10) (5 # 100) (amt 50) "USD";
              mkProposal "BBB" BUY (8 # 10) (1 # 320) (amt 20) "USD"]
             scenario_portfolio scenario_config in
  map t_ticker (approved v) = ["AAA"] /\
  Forall2 Qeq (map t_value (approved v)) [800 # 1] /\
  Forall2 Qeq (map t_quantity (approved v)) [16 # 1] /\
  map r_code (rejected v) = [below_minimum].
Proof.
  cbv zeta. vm_compute.
  repeat split; repeat constructor; discriminate.
Qed.






















End RiskEngineFacts.

Module MemoryRetrievalFacts.
Import Types MemoryRetrieval.
Local Open Scope Q_scope.

Section Lists.
Context {A : Type}.

Lemma firstn_incl (n : nat) (l : list A) (x : A) : In x (firstn n l) -> In x l.
Proof.
  revert l; induction n as [|n IH]; intros [|y l]; simpl; try tauto.
  intros [-> | H]; auto.
Qed.

Lemma insert_sorted_In (before : A -> A -> bool) (x y : A) (l : list A) :
  In y (insert_sorted before x l) -> y = x \/ In y l.
Proof.
  induction l as [|z r IH]; simpl.
  - intros [-> | []]. now left.
  - destruct (before x z); simpl.
    + intros [-> | H]; auto.
    + intros [-> | H]; auto. destruct (IH H); auto.
Qed.

Lemma sort_with_In (before : A -> A -> bool) (y : A) (l : list A) :
  In y (sort_with before l) -> In y l.
Proof.
  induction l as [|x r IH]; simpl; [tauto|].
  intros H. apply insert_sorted_In in H. destruct H as [-> | H]; auto.
Qed.

End Lists.

Lemma dedupe_In seen l r : In r (dedupe seen l) -> In r l.
Proof.
  revert seen; induction l as [|x t IH]; intros seen; simpl; [tauto|].
  destruct (existsb (Z.eqb (report_id x)) seen); simpl.
  - intros H. right. eauto.
  - intros [-> | H]; [now left | right; eauto].
Qed.

(** Each tier selects visible reports of the store only. *)
Lemma tier1_visible sc st c r :
  In r (tier1 sc st c) -> In r (reports st) /\ visible sc r = true.
Proof.
  unfold tier1. intros H.
  apply firstn_incl, sort_with_In, filter_In in H. destruct H as [Hin H].
  apply andb_true_iff in H. tauto.
Qed.

Lemma tier2_visible sc st c r :
  In r (tier2 sc st c) -> In r (reports st) /\ visible sc r = true.
Proof.
  unfold tier2. intros H.
  apply firstn_incl, sort_with_In, filter_In in H. destruct H as [Hin H].
  repeat (apply andb_true_iff in H; destruct H as [H _]). tauto.
Qed.

Lemma tier3_visible cfg sc st c r :
  In r (tier3 cfg sc st c) -> In r (reports st) /\ visible sc r = true.
Proof.
  unfold tier3. intros H. apply filter_In in H. destruct H as [Hin H].
  apply andb_true_iff in H. tauto.
Qed.

Lemma retrieve_reports_visible cfg sc st c r :
  In r (retrieve_reports cfg sc st c) -> In r (reports st) /\ visible sc r = true.
Proof.
  unfold retrieve_reports. intros H.
  apply firstn_incl, dedupe_In in H.
  apply in_app_or in H. destruct H as [H | H]; [eapply tier1_visible; eauto|].
  apply in_app_or in H. destruct H as [H | H];
    [eapply tier2_visible | eapply tier3_visible]; eauto.
Qed.

Example retrieve_live :
  map report_id (retrieve_reports sample_config Live sample_store sample_candidate)
  = [1; 4]%Z.
Proof. reflexivity. Qed.

Example retrieve_run_A :
  map report_id
      (retrieve_reports sample_config (Backtest "run-A") sample_store sample_candidate)
  = [5; 2]%Z.
Proof. reflexivity. Qed.

Example retrieve_run_B :
  map report_id
      (retrieve_reports sample_config (Backtest "run-B") sample_store sample_candidate)
  = [3]%Z.
Proof. reflexivity. Qed.

(** C2: a report tagged as backtest with run id [A] is never retrieved under
    the live scope nor under the scope of another run [B]; an untagged (live)
    report is never retrieved under the scope of a backtest run; and every
    item handed to the oracle is the summary of a report of the store that is
    visible in the scope of the retrieval. *)
Theorem backtest_memory_isolation
    (cfg : MemoryConfig) (st : Store) (c : Candidate) (r : DecisionReport) :
  (forall A, is_backtest r = true -> backtest_run_id r = Some A ->
     ~ In r (retrieve_reports cfg Live st c) /\
     forall B, B <> A -> ~ In r (retrieve_reports cfg (Backtest B) st c)) /\
  (is_backtest r = false ->
     forall B, ~ In r (retrieve_reports cfg (Backtest B) st c)) /\
  (forall sc item, In item (retrieve cfg sc st c) ->
     exists r', In r' (reports st) /\ visible sc r' = true /\ item = summarize r').
Proof.
  split; [|split].
  - intros A Htag Hrun. split.
    + intros H. apply retrieve_reports_visible in H. destruct H as [_ H].
      simpl in H. rewrite Htag in H. discriminate.
    + intros B Hne H. apply retrieve_reports_visible in H. destruct H as [_ H].
      simpl in H. rewrite Htag, Hrun in H. simpl in H.
      apply String.eqb_eq in H. congruence.
  - intros Htag B H. apply retrieve_reports_visible in H. destruct H as [_ H].
    simpl in H. rewrite Htag in H. discriminate.
  - intros sc item H. unfold retrieve in H. apply in_map_iff in H.
    destruct H as (r' & <- & Hin).
    apply retrieve_reports_visible in Hin. destruct Hin as [Hst Hvis].
    exists r'. auto.
Qed.

Lemma backtest_memory_isolation_witness :
  ~ In (report 2 "ASML" 11 true (Some "run-A"))
       (retrieve_reports sample_config Live sample_store sample_candidate) /\
  ~ In (report 2 "ASML" 11 true (Some "run-A"))
       (retrieve_reports sample_config (Backtest "run-B") sample_store sample_candidate) /\
  ~ In (report 1 "ASML" 10 false None)
       (retrieve_reports sample_config (Backtest "run-A") sample_store sample_candidate).
Proof.
  destruct (backtest_memory_isolation sample_config sample_store sample_candidate
              (report 2 "ASML" 11 true (Some "run-A"))) as (Hbt & _ & _).
  destruct (Hbt "run-A" eq_refl eq_refl) as [Hlive Hother].
  destruct (backtest_memory_isolation sample_config sample_store sample_candidate
              (report 1 "ASML" 10 false None)) as (_ & Hun & _).
  split; [exact Hlive | split].
  - apply Hother. discriminate.
  - apply Hun. reflexivity.
Defined.

End MemoryRetrievalFacts.

Module PaginationPages.
Import Pagination.

(** The page indicator: while the offset lies inside the result set the
    current page is between 1 and [totalPages]; Next moves one page forward;
    Prev moves one page back, and from an offset smaller than the limit it
    lands on offset 0, page 1. *)
Theorem page_indicator_in_range (p : PaginationProps) :
  0 < limit p -> 0 <= offset p -> offset p < total p ->
  1 <= currentPage p <= totalPages p /\
  (forall o, goToNext p = Some o ->
     currentPage (mkProps (total p) (limit p) o) = currentPage p + 1) /\
  (forall o, goToPrev p = Some o -> limit p <= offset p ->
     currentPage (mkProps (total p) (limit p) o) = currentPage p - 1) /\
  (forall o, goToPrev p = Some o -> offset p < limit p ->
     o = 0 /\ currentPage (mkProps (total p) (limit p) o) = 1).
Proof.
  intros Hl Ho Ht.
  unfold currentPage, totalPages, ceil_div, goToNext, goToPrev, hasNext, hasPrev.
  cbn [total limit offset].
  pose proof (Z.div_mod (offset p) (limit p) ltac:(lia)) as E1.
  pose proof (Z.mod_pos_bound (offset p) (limit p) Hl) as B1.
  pose proof (Z.div_mod (- total p) (limit p) ltac:(lia)) as E2.
  pose proof (Z.mod_pos_bound (- total p) (limit p) Hl) as B2.
  assert (Hq : 0 <= offset p / limit p) by (apply Z.div_pos; lia).
  split; [|split; [|split]].
  - revert E1 B1 E2 B2 Hq.
    generalize (offset p / limit p) (offset p mod limit p)
               (- total p / limit p) (- total p mod limit p).
    intros q1 r1 q2 r2 E1 B1 E2 B2 Hq.
    split; [lia|]. apply Z.max_le_iff. right. nia.
  - clear E1 B1 E2 B2 Hq.
    intros o H. destruct (offset p + limit p <? total p); [|discriminate].
    injection H as <-.
    replace (offset p + limit p) with (offset p + 1 * limit p) by ring.
    rewrite Z.div_add by lia. ring.
  - clear E1 B1 E2 B2 Hq.
    intros o H Hge. destruct (0 <? offset p); [|discriminate].
    injection H as <-. rewrite Z.max_r by lia.
    replace (offset p) with ((offset p - limit p) + 1 * limit p) at 2 by ring.
    rewrite Z.div_add by lia. ring.
  - clear E1 B1 E2 B2 Hq.
    intros o H Hlt. destruct (0 <? offset p); [|discriminate].
    injection H as <-. rewrite Z.max_l by lia. split; [reflexivity|].
    rewrite Z.div_0_l by lia. reflexivity.
Qed.

Lemma page_indicator_in_range_witness :
  let p := mkProps 120 50 50 in
  1 <= currentPage p <= totalPages p /\
  currentPage (mkProps 120 50 100) = currentPage p + 1.
Proof.
  cbv zeta.
  destruct (page_indicator_in_range (mkProps 120 50 50)
              ltac:(simpl; lia) ltac:(simpl; lia) ltac:(simpl; lia))
    as (Hrange & Hnext & _).
  split; [exact Hrange | exact (Hnext 100 eq_refl)].
Defined.

(** Exactly when the indicator stays in range: the current page is at most
    [totalPages] if and only if the offset is below [totalPages * limit]; an
    offset at or past that bound shows a page past the last one. *)
Theorem page_indicator_in_range_iff (p : PaginationProps) :
  0 < limit p -> 0 <= offset p -> 0 <= total p ->
  (currentPage p <= totalPages p <-> offset p < totalPages p * limit p).
Proof.
  intros Hl Ho Ht. unfold currentPage.
  pose proof (Z.div_mod (offset p) (limit p) ltac:(lia)) as E1.
  pose proof (Z.mod_pos_bound (offset p) (limit p) Hl) as B1.
  revert E1 B1.
  generalize (offset p / limit p) (offset p mod limit p) (totalPages p).
  intros q1 r1 n E1 B1. split; intros H; nia.
Qed.

Lemma page_indicator_in_range_iff_witness :
  ~ currentPage (mkProps 5 10 10) <= totalPages (mkProps 5 10 10).
Proof.
  intros H.
  apply (page_indicator_in_range_iff (mkProps 5 10 10)) in H;
    [vm_compute in H; discriminate H | | | ]; simpl; lia.
Defined.

End PaginationPages.

Module ConfidenceBarColor.
Import JS ConfidenceBar.

Lemma Qle_bool_false_lt (a b : Q) : Qle_bool a b = false -> (b < a)%Q.
Proof.
  intros E. apply Qnot_le_lt. intros H. apply Qle_bool_iff in H. congruence.
Qed.

(** The colour of a finite input, by the band the input falls in. *)
Lemma barColor_finite (v : value_prop) (c : Q) :
  numeric v = Fin c ->
  barColor v = "bg-gain" /\ (3 # 4 <= c)%Q \/
  barColor v = "bg-yellow-500" /\ (1 # 2 <= c)%Q /\ (c < 3 # 4)%Q \/
  barColor v = "bg-loss" /\ (c < 1 # 2)%Q.
Proof.
  intros Hn. unfold barColor, clamped, getBarColor. rewrite Hn. simpl.
  destruct (Qle_bool 1 c) eqn:E1; simpl.
  - apply Qle_bool_iff in E1. left. split; [reflexivity | lra].
  - apply Qle_bool_false_lt in E1.
    destruct (Qle_bool c 0) eqn:E0; simpl.
    + apply Qle_bool_iff in E0. right; right. split; [reflexivity | lra].
    + apply Qle_bool_false_lt in E0.
      destruct (Qle_bool (3 # 4) c) eqn:E34; simpl.
      * apply Qle_bool_iff in E34. left. split; [reflexivity | exact E34].
      * apply Qle_bool_false_lt in E34.
        destruct (Qle_bool (1 # 2) c) eqn:E12; simpl.
        -- apply Qle_bool_iff in E12. right; left. auto.
        -- apply Qle_bool_false_lt in E12. right; right. auto.
Qed.

(** The bar's colour follows the unrounded value: green from 0.75 up
    (infinity included), yellow from 0.5 up to 0.75, red below 0.5 and for
    an input that is not a number. *)
Theorem bar_color_by_value (v : value_prop) :
  (barColor v = "bg-gain" <->
     numeric v = PosInf \/ exists c, numeric v = Fin c /\ (3 # 4 <= c)%Q) /\
  (barColor v = "bg-yellow-500" <->
     exists c, numeric v = Fin c /\ (1 # 2 <= c)%Q /\ (c < 3 # 4)%Q) /\
  (barColor v = "bg-loss" <->
     numeric v = NaN \/ numeric v = NegInf \/
     exists c, numeric v = Fin c /\ (c < 1 # 2)%Q).
Proof.
  destruct (numeric v) as [| |c|] eqn:Hn.
  - assert (H : barColor v = "bg-loss")
      by (unfold barColor, clamped; rewrite Hn; reflexivity).
    rewrite H. repeat split; try discriminate; auto.
    + intros [E | (c & E & _)]; discriminate E.
    + intros (c & E & _); discriminate E.
  - assert (H : barColor v = "bg-loss")
      by (unfold barColor, clamped; rewrite Hn; reflexivity).
    rewrite H. repeat split; try discriminate; auto.
    + intros [E | (c & E & _)]; discriminate E.
    + intros (c & E & _); discriminate E.
  - destruct (barColor_finite v c Hn) as [[-> H] | [[-> [H1 H2]] | [-> H]]];
      repeat split; try discriminate; eauto 6.
    + intros (c' & E & H1 & H2). injection E as <-. lra.
    + intros [E | [E | (c' & E & H')]]; try discriminate E.
      injection E as <-. lra.
    + intros [E | (c' & E & H')]; [discriminate E|]. injection E as <-. lra.
    + intros [E | [E | (c' & E & H')]]; try discriminate E.
      injection E as <-. lra.
    + intros [E | (c' & E & H')]; [discriminate E|]. injection E as <-. lra.
    + intros (c' & E & H1 & H2). injection E as <-. lra.
  - assert (H : barColor v = "bg-gain")
      by (unfold barColor, clamped; rewrite Hn; reflexivity).
    rewrite H. repeat split; try discriminate; auto.
    + intros (c & E & _); discriminate E.
    + intros [E | [E | (c & E & _)]]; discriminate E.
Qed.

Lemma bar_color_by_value_witness :
  barColor (VString "0.746") = "bg-yellow-500" /\
  pct (VString "0.746") = Fin (inject_Z 75) /\
  barColor (VString "n/a") = "bg-loss".
Proof.
  destruct (bar_color_by_value (VString "0.746")) as (_ & Hy & _).
  destruct (bar_color_by_value (VString "n/a")) as (_ & _ & Hl).
  split; [|split; [vm_compute; reflexivity|]].
  - apply Hy. eexists. split; [vm_compute; reflexivity|].
    split; [vm_compute; discriminate | vm_compute; reflexivity].
  - apply Hl. left. vm_compute. reflexivity.
Defined.

End ConfidenceBarColor.

Module PortfolioSummaryCardFacts.
Import JS PortfolioSummaryCard.

Ltac card_cases :=
  repeat match goal with
         | H : _ /\ _ |- _ => destruct H
         | H : _ \/ _ |- _ => destruct H
         | H : exists _, _ |- _ => destruct H
         | H : Some _ = Some _ |- _ => injection H as H; subst
         | H : ErrorBox _ = ErrorBox _ |- _ => injection H as H; subst
         | H : DailyCard _ = DailyCard _ |- _ => injection H as H; subst
         | H : ValueText _ _ = ValueText _ _ |- _ => injection H as H; subst
         | H : None = Some _ |- _ => discriminate H
         | H : Some _ = None |- _ => discriminate H
         | H : true = false |- _ => discriminate H
         | H : false = true |- _ => discriminate H
         | H : ErrorBox _ = DailyCard _ |- _ => discriminate H
         | H : DailyCard _ = ErrorBox _ |- _ => discriminate H
         | H : Skeleton = ValueText _ _ |- _ => discriminate H
         | H : ValueText _ _ = Skeleton |- _ => discriminate H
         | H : DailyCard Skeleton = DailyCard (ValueText _ _) |- _ => discriminate H
         | H : DailyCard (ValueText _ _) = DailyCard Skeleton |- _ => discriminate H
         end.

Ltac nan_not_ge :=
  match goal with
  | Hn : parseFloat _ = NaN, Eg : ge (parseFloat _) _ = true |- _ =>
      rewrite Hn in Eg; discriminate Eg
  end.

(** The "Daily P&L" card.  With an error to show, the error box stands in
    place of the cards, whatever data is still held.  Without one, the card
    shows the placeholder while loading, else the formatted amount: green
    exactly when the loaded data holds a non-empty amount that reads as a
    number at or above zero; red exactly when it holds a non-empty amount that
    does not (a negative number, or text that is not a number); white
    exactly when no data is loaded or the amount is empty.  So an amount that
    is not a number is printed as a dash, in red. *)
Theorem daily_pnl_card_color
    (intl_format : number -> string -> string)
    (data : option PortfolioSummaryResponse) (loading : bool)
    (error : option string) :
  let view := PortfolioSummaryCard_daily intl_format data loading error in
  let text := formatCurrency intl_format (option_map daily_pnl data) "EUR" in
  (forall m, view = ErrorBox m <-> error = Some m /\ str_truthy m = true) /\
  (view = DailyCard Skeleton <-> present error = false /\ loading = true) /\
  (forall t, view = DailyCard (ValueText t "text-gain") <->
     present error = false /\ loading = false /\ t = text /\
     exists d, data = Some d /\ str_truthy (daily_pnl d) = true /\
               ge (parseFloat (daily_pnl d)) (Fin 0) = true) /\
  (forall t, view = DailyCard (ValueText t "text-loss") <->
     present error = false /\ loading = false /\ t = text /\
     exists d, data = Some d /\ str_truthy (daily_pnl d) = true /\
               ge (parseFloat (daily_pnl d)) (Fin 0) = false) /\
  (forall t, view = DailyCard (ValueText t "text-white") <->
     present error = false /\ loading = false /\ t = text /\
     (data = None \/
      exists d, data = Some d /\ str_truthy (daily_pnl d) = false)) /\
  (forall d, data = Some d -> present error = false -> loading = false ->
     str_truthy (daily_pnl d) = true -> parseFloat (daily_pnl d) = NaN ->
     view = DailyCard (ValueText dash "text-loss")).
Proof.
  cbv zeta. unfold PortfolioSummaryCard_daily, MetricCard_value.
  set (text := formatCurrency intl_format (option_map daily_pnl data) "EUR").
  assert (Hdash : forall d, data = Some d -> str_truthy (daily_pnl d) = true ->
                    parseFloat (daily_pnl d) = NaN -> text = dash).
  { intros d -> Ht Hn. unfold text, formatCurrency. cbn [option_map].
    rewrite Ht, Hn. reflexivity. }
  clearbody text.
  unfold isPnlPositive, valueColor.
  destruct error as [[|a m]|]; cbn [present str_truthy].
  - (* an empty error message *)
    destruct loading; cbn [negb andb];
      [|destruct data as [d|]; cbn [option_map present];
        [destruct (str_truthy (daily_pnl d)) eqn:Et; cbn [negb andb];
         [destruct (ge (parseFloat (daily_pnl d)) (Fin 0)) eqn:Eg; cbn [negb andb]|]|]];
      repeat split; intros; card_cases; cbn [negb andb] in *;
      try discriminate; try congruence;
      try (repeat split; try reflexivity; eauto; fail);
      try (subst; reflexivity);
      try nan_not_ge;
      try (rewrite (Hdash _ eq_refl) by assumption; congruence).
  - (* an error to show *)
    repeat split; intros; card_cases; try discriminate; try congruence;
      try reflexivity.
  - (* no error *)
    destruct loading; cbn [negb andb];
      [|destruct data as [d|]; cbn [option_map present];
        [destruct (str_truthy (daily_pnl d)) eqn:Et; cbn [negb andb];
         [destruct (ge (parseFloat (daily_pnl d)) (Fin 0)) eqn:Eg; cbn [negb andb]|]|]];
      repeat split; intros; card_cases; cbn [negb andb] in *;
      try discriminate; try congruence;
      try (repeat split; try reflexivity; eauto; fail);
      try (subst; reflexivity);
      try nan_not_ge;
      try (rewrite (Hdash _ eq_refl) by assumption; congruence).
Qed.

Lemma daily_pnl_card_color_witness :
  PortfolioSummaryCard_daily (fun _ _ => "")
    (Some (mkSummary "1000" "10" "990" "pending" "0.1" 3 [])) false None
  = DailyCard (ValueText dash "text-loss").
Proof.
  destruct (daily_pnl_card_color (fun _ _ => "")
              (Some (mkSummary "1000" "10" "990" "pending" "0.1" 3 [])) false None)
    as (_ & _ & _ & _ & _ & H).
  apply (H _ eq_refl eq_refl eq_refl eq_refl eq_refl).
Defined.

End PortfolioSummaryCardFacts.

Module ProgressBarFacts.
Import JS BacktestPage.



End ProgressBarFacts.

Module StatusBadgeFacts.
Import TradesPage.

Lemma upper_char_idem (c : ascii) : upper_char (upper_char c) = upper_char c.
Proof. destruct c as [[] [] [] [] [] [] [] []]; reflexivity. Qed.

Lemma toUpperCase_idem (s : string) : toUpperCase (toUpperCase s) = toUpperCase s.
Proof.
  induction s as [|c r IH]; simpl; [reflexivity|].
  now rewrite upper_char_idem, IH.
Qed.

Lemma record_get_In (k v : string) (r : list (string * string)) :
  record_get k r = Some v -> In (k, v) r.
Proof.
  induction r as [|[k' v'] t IH]; simpl; [discriminate|].
  destruct (String.eqb_spec k k') as [-> | _].
  - intros H. injection H as ->. now left.
  - intros H. right. auto.
Qed.

Lemma record_get_None (k : string) (r : list (string * string)) :
  ~ In k (map fst r) -> record_get k r = None.
Proof.
  induction r as [|[k' v'] t IH]; simpl; [reflexivity|].
  intros H. destruct (String.eqb_spec k k') as [-> | _]; [tauto|].
  apply IH. tauto.
Qed.

(** [statusBadge] always finds a style, one of the four of its table; it
    ignores the case of the status; and every status whose upper-case form
    is not a key of the table is drawn with the style of CANCELLED. *)
Theorem statusBadge_total_and_case_blind (status : string) :
  (exists style, statusBadge status = Some style /\ In style (map snd styles)) /\
  (forall t, toUpperCase t = toUpperCase status -> statusBadge t = statusBadge status) /\
  statusBadge (toUpperCase status) = statusBadge status /\
  (~ In (toUpperCase status) styled_statuses ->
   statusBadge status = statusBadge "CANCELLED").
Proof.
  split; [|split; [|split]].
  - unfold statusBadge.
    destruct (record_get (toUpperCase status) styles) as [style|] eqn:E.
    + exists style. split; [reflexivity|].
      apply record_get_In in E. apply (in_map snd) in E. exact E.
    + eexists. split; [reflexivity|]. simpl. auto.
  - intros t H. unfold statusBadge. now rewrite H.
  - unfold statusBadge. now rewrite toUpperCase_idem.
  - intros H. unfold statusBadge at 1. unfold styled_statuses in H.
    rewrite (record_get_None _ _ H). reflexivity.
Qed.

Lemma statusBadge_total_and_case_blind_witness :
  statusBadge "filled" = statusBadge "CANCELLED" /\
  statusBadge "Pending" = statusBadge "PENDING".
Proof.
  destruct (statusBadge_total_and_case_blind "filled") as (_ & _ & _ & Hfall).
  destruct (statusBadge_total_and_case_blind "PENDING") as (_ & Hcase & _).
  split.
  - apply Hfall. simpl. intros H.
    repeat (destruct H as [H | H]; [discriminate H|]). exact H.
  - apply Hcase. reflexivity.
Defined.

End StatusBadgeFacts.

Module SidebarFacts.
Import Types Sidebar.

(** The status badge: nothing is drawn for a missing or empty status; a
    status whose upper-case form is RUNNING, SUCCESS or FAILED is drawn with
    that entry's label; every other status, PARTIAL_FAILURE among them, is
    drawn in grey with the status text itself as the label. *)
Theorem pipeline_badge_by_status (status : option string) :
  (PipelineStatusBadge status = None <-> status = None \/ status = Some "") /\
  (forall s, status = Some s -> s <> "" ->
     (forall l, as_PipelineStatus (TradesPage.toUpperCase s) = Some l ->
        option_map label (PipelineStatusBadge status)
        = Some (match l with
                | RUNNING => "Running"
                | SUCCESS => "Success"
                | FAILED => "Failed"
                end)) /\
     (as_PipelineStatus (TradesPage.toUpperCase s) = None ->
        PipelineStatusBadge status
        = Some (mkBadge "text-gray-400 bg-gray-700 border-gray-600" "bg-gray-400" s))).
Proof.
  split.
  - destruct status as [[|c r]|]; simpl; split; auto; try discriminate.
    intros [H | H]; discriminate H.
  - intros s -> Hne.
    assert (Ht : JS.str_truthy s = true) by (destruct s; [congruence | reflexivity]).
    unfold PipelineStatusBadge. rewrite Ht. cbn [negb].
    unfold as_PipelineStatus, configs. cbn [config_get].
    destruct (String.eqb (TradesPage.toUpperCase s) "RUNNING");
      [split; [intros l H; injection H as <-; reflexivity | discriminate]|].
    destruct (String.eqb (TradesPage.toUpperCase s) "SUCCESS");
      [split; [intros l H; injection H as <-; reflexivity | discriminate]|].
    destruct (String.eqb (TradesPage.toUpperCase s) "FAILED");
      [split; [intros l H; injection H as <-; reflexivity | discriminate]|].
    split; [discriminate | reflexivity].
Qed.

Lemma pipeline_badge_by_status_witness :
  PipelineStatusBadge (Some "PARTIAL_FAILURE")
  = Some (mkBadge "text-gray-400 bg-gray-700 border-gray-600" "bg-gray-400"
                  "PARTIAL_FAILURE") /\
  option_map label (PipelineStatusBadge (Some "success")) = Some "Success".
Proof.
  destruct (pipeline_badge_by_status (Some "PARTIAL_FAILURE")) as [_ H1].
  destruct (pipeline_badge_by_status (Some "success")) as [_ H2].
  destruct (H1 "PARTIAL_FAILURE" eq_refl ltac:(discriminate)) as [_ Hgrey].
  destruct (H2 "success" eq_refl ltac:(discriminate)) as [Hown _].
  split; [apply Hgrey; reflexivity | apply (Hown SUCCESS); reflexivity].
Defined.

Lemma sidebar_step_posts (s : SidebarState) (e : sidebar_event) :
  let (s', out) := sidebar_step s e in
  (posts out <= 1)%nat /\
  (posts out = 1%nat -> triggering s = false /\ triggering s' = true) /\
  (posts out = 0%nat ->
   triggering s' = if is_post_settled e then false else triggering s).
Proof.
  destruct e as [|[r|m]| |[u|m]]; simpl; try (repeat split; auto; discriminate).
  unfold trigger_disabled.
  destruct (triggering s) eqn:Et; simpl; [repeat split; auto; discriminate|].
  destruct (status_running s); simpl; repeat split; auto; discriminate.
Qed.

(** No second manual trigger while one is in flight: along every run of the
    sidebar the POSTs to the pipeline are at most the triggers that have
    settled, plus one when the run starts with none in flight. *)
Theorem sidebar_one_trigger_in_flight (es : list sidebar_event) :
  forall s,
  (posts (snd (sidebar_run s es))
   <= (if triggering s then 0 else 1)
      + List.length (filter is_post_settled es))%nat.
Proof.
  induction es as [|e es IH]; intros s; simpl.
  - unfold posts. destruct (triggering s); simpl; lia.
  - pose proof (sidebar_step_posts s e) as Hstep.
    destruct (sidebar_step s e) as [s1 out1].
    specialize (IH s1). destruct (sidebar_run s1 es) as [s2 out2].
    simpl in *. unfold posts in *. rewrite filter_app, length_app.
    destruct Hstep as (Hle & Hone & Hzero).
    destruct (List.length (filter is_post out1)) as [|[|n]] eqn:En; [| |lia].
    + specialize (Hzero eq_refl). rewrite Hzero in IH.
      destruct (is_post_settled e); simpl in *; [|lia].
      destruct (triggering s); lia.
    + destruct (Hone eq_refl) as [Hs Hs1]. rewrite Hs1 in IH. rewrite Hs.
      destruct (is_post_settled e); simpl in *; lia.
Qed.

(** The trigger button is disabled by the status only for the exact text
    RUNNING: with a status that differs from it in case, which the badge
    still labels Running, a click sends a new POST. *)
Theorem sidebar_running_gate_is_case_sensitive (s : SidebarState) (t : string) :
  current_status s = Some t -> triggering s = false ->
  (trigger_disabled s = true <-> t = "RUNNING") /\
  (TradesPage.toUpperCase t = "RUNNING" -> t <> "RUNNING" ->
   option_map label (PipelineStatusBadge (current_status s)) = Some "Running" /\
   snd (sidebar_step s ClickTrigger) = [PostPipelineRun]).
Proof.
  intros Hst Htr.
  assert (Hdis : trigger_disabled s = String.eqb t "RUNNING")
    by (unfold trigger_disabled, status_running; rewrite Htr, Hst; reflexivity).
  split.
  - rewrite Hdis. apply String.eqb_eq.
  - intros Hup Hne. split.
    + rewrite Hst. unfold PipelineStatusBadge.
      assert (Ht : JS.str_truthy t = true)
        by (destruct t; [discriminate Hup | reflexivity]).
      rewrite Ht, Hup. reflexivity.
    + simpl. rewrite Hdis.
      apply String.eqb_neq in Hne. rewrite Hne. reflexivity.
Qed.

Lemma sidebar_running_gate_is_case_sensitive_witness :
  let s := mkSidebar (Some (mkStatusResponse (Some "running") None)) false None in
  option_map label (PipelineStatusBadge (current_status s)) = Some "Running" /\
  snd (sidebar_step s ClickTrigger) = [PostPipelineRun].
Proof.
  cbv zeta.
  destruct (sidebar_running_gate_is_case_sensitive
              (mkSidebar (Some (mkStatusResponse (Some "running") None)) false None)
              "running" eq_refl eq_refl) as [_ H].
  apply H; [reflexivity | discriminate].
Defined.

End SidebarFacts.

Module PositionsTableOrder.
Import JS Types PositionsTable.

Section InsertionSort.
Context {A : Type} (cmp : A -> A -> Z).
Hypothesis cmp_total : forall a b, ~ cmp a b <= 0 -> cmp b a <= 0.
Hypothesis cmp_trans : forall a b c, cmp a b <= 0 -> cmp b c <= 0 -> cmp a c <= 0.

Lemma insert_by_In (x y : A) (l : list A) :
  In y (insert_by cmp x l) -> y = x \/ In y l.
Proof.
  induction l as [|z r IH]; simpl.
  - intros [-> | []]. now left.
  - destruct (cmp x z <=? 0); simpl.
    + intros [-> | H]; auto.
    + intros [-> | H]; auto. destruct (IH H); auto.
Qed.

Lemma insert_by_sorted (x : A) (l : list A) :
  StronglySorted (fun a b => cmp a b <= 0) l ->
  StronglySorted (fun a b => cmp a b <= 0) (insert_by cmp x l).
Proof.
  induction l as [|y r IH]; simpl; intros Hs.
  - repeat constructor.
  - apply StronglySorted_inv in Hs. destruct Hs as [Hr Hy].
    destruct (Z.leb_spec (cmp x y) 0) as [Hxy | Hxy].
    + constructor; [constructor; assumption|].
      constructor; [exact Hxy|].
      rewrite Forall_forall in *. intros z Hz. eapply cmp_trans; eauto.
    + constructor; [auto|].
      rewrite Forall_forall in *. intros z Hz.
      apply insert_by_In in Hz. destruct Hz as [-> | Hz]; [|auto].
      apply cmp_total. lia.
Qed.

Lemma sort_by_sorted (l : list A) :
  StronglySorted (fun a b => cmp a b <= 0) (sort_by cmp l).
Proof.
  induction l as [|x r IH]; simpl; [constructor | now apply insert_by_sorted].
Qed.

End InsertionSort.

(** *** The order of numbers that are not [NaN] *)

Lemma lt_asym (x y : number) : JS.lt x y = true -> JS.lt y x = false.
Proof.
  destruct x as [| |a|], y as [| |b|]; simpl; try reflexivity; try discriminate.
  intros H. apply negb_true_iff in H. apply negb_false_iff.
  apply Qle_bool_iff. destruct (Qle_bool b a) eqn:E; [discriminate|].
  apply Qlt_le_weak, Qnot_le_lt. intros H'. apply Qle_bool_iff in H'. congruence.
Qed.

Lemma lt_false_trans (x y z : number) :
  isNaN x = false -> isNaN y = false -> isNaN z = false ->
  JS.lt y x = false -> JS.lt z y = false -> JS.lt z x = false.
Proof.
  destruct x as [| |a|], y as [| |b|], z as [| |c|]; simpl;
    try reflexivity; try discriminate.
  intros _ _ _ H1 H2.
  apply negb_false_iff in H1, H2. apply negb_false_iff.
  apply Qle_bool_iff in H1, H2. apply Qle_bool_iff. eapply Qle_trans; eauto.
Qed.

Lemma or_zero_not_NaN (x : number) : isNaN (or_zero x) = false.
Proof. destruct x; reflexivity || (unfold or_zero; simpl; destruct (negb _); reflexivity). Qed.

(** *** The order of strings *)

Lemma string_compare_trans (a : string) :
  forall b c, String.compare a b <> Gt -> String.compare b c <> Gt ->
              String.compare a c <> Gt.
Proof.
  induction a as [|x a IH]; intros [|y b] [|z c]; simpl; try congruence.
  unfold Ascii.compare.
  destruct (N.compare_spec (N_of_ascii x) (N_of_ascii y)) as [E1 | E1 | E1];
    destruct (N.compare_spec (N_of_ascii y) (N_of_ascii z)) as [E2 | E2 | E2];
    destruct (N.compare_spec (N_of_ascii x) (N_of_ascii z)) as [E3 | E3 | E3];
    try congruence; try lia; try apply IH;
    intros H1 H2; try congruence; try (exfalso; lia).
Qed.

Lemma str_lt_asym (s t : string) : str_lt s t = true -> str_lt t s = false.
Proof.
  unfold str_lt, String.ltb. rewrite (String.compare_antisym t s).
  destruct (String.compare s t); simpl; congruence.
Qed.

Lemma str_lt_false_trans (x y z : string) :
  str_lt y x = false -> str_lt z y = false -> str_lt z x = false.
Proof.
  unfold str_lt, String.ltb. intros H1 H2.
  assert (Hxy : String.compare x y <> Gt).
  { rewrite String.compare_antisym. destruct (String.compare y x); simpl;
      congruence. }
  assert (Hyz : String.compare y z <> Gt).
  { rewrite String.compare_antisym. destruct (String.compare z y); simpl;
      congruence. }
  pose proof (string_compare_trans x y z Hxy Hyz) as Hxz.
  rewrite String.compare_antisym in Hxz.
  destruct (String.compare z x); simpl in *; congruence.
Qed.

(** *** The values rows are compared by *)

Lemma val_lt_asym (sort : SortConfig SortKey) (a b : PositionResponse) :
  val_lt (sort_val sort a) (sort_val sort b) = true ->
  val_lt (sort_val sort b) (sort_val sort a) = false.
Proof.
  unfold sort_val. destruct (includes numericKeys (key sort)); simpl.
  - apply lt_asym.
  - apply str_lt_asym.
Qed.

Lemma val_lt_false_trans (sort : SortConfig SortKey) (a b c : PositionResponse) :
  val_lt (sort_val sort b) (sort_val sort a) = false ->
  val_lt (sort_val sort c) (sort_val sort b) = false ->
  val_lt (sort_val sort c) (sort_val sort a) = false.
Proof.
  unfold sort_val. destruct (includes numericKeys (key sort)); simpl.
  - apply lt_false_trans; apply or_zero_not_NaN.
  - apply str_lt_false_trans.
Qed.

Lemma compareFn_in_order (sort : SortConfig SortKey) (a b : PositionResponse) :
  compareFn sort a b <= 0 <-> in_order sort a b = true.
Proof.
  unfold compareFn, in_order.
  pose proof (val_lt_asym sort a b) as Hab.
  pose proof (val_lt_asym sort b a) as Hba.
  destruct (val_lt (sort_val sort a) (sort_val sort b)),
           (val_lt (sort_val sort b) (sort_val sort a)),
           (direction sort); simpl; split; intros H; try lia; try reflexivity;
    try discriminate; try (specialize (Hab eq_refl); discriminate).
Qed.

(** [sortPositions] orders the rows: in the array it returns every row may
    stand before every later row, that is, ascending no later row has a
    smaller key and descending no later row has a larger key (numbers for the
    numeric columns, text for the ticker). *)
Theorem sortPositions_ordered
    (h : store) (positions : ref) (sort : SortConfig SortKey) :
  (positions < List.length h)%nat ->
  let h' := fst (sortPositions h positions sort) in
  let out := snd (sortPositions h positions sort) in
  StronglySorted (fun a b => in_order sort a b = true) (deref h' out).
Proof.
  intros Hvalid. unfold sortPositions, spread, sort_in_place. cbn [fst snd].
  assert (Hout : deref (update (h ++ [deref h positions]) (List.length h)
                          (sort_by (compareFn sort)
                             (deref (h ++ [deref h positions]) (List.length h))))
                       (List.length h)
                 = sort_by (compareFn sort) (deref h positions)).
  { unfold deref at 1. rewrite PositionsTableFacts.update_same
      by (rewrite length_app; simpl; lia).
    unfold deref at 1. rewrite app_nth2 by lia.
    rewrite Nat.sub_diag. reflexivity. }
  rewrite Hout.
  assert (Hs : StronglySorted (fun a b => compareFn sort a b <= 0)
                 (sort_by (compareFn sort) (deref h positions))).
  { apply sort_by_sorted.
    - intros a b Hn. apply compareFn_in_order.
      assert (Hf : in_order sort a b <> true)
        by (intros H; apply Hn; now apply compareFn_in_order).
      unfold in_order in *.
      destruct (direction sort).
      + destruct (val_lt (sort_val sort b) (sort_val sort a)) eqn:E;
          [|simpl in Hf; congruence].
        rewrite (val_lt_asym sort b a E). reflexivity.
      + destruct (val_lt (sort_val sort a) (sort_val sort b)) eqn:E;
          [|simpl in Hf; congruence].
        rewrite (val_lt_asym sort a b E). reflexivity.
    - intros a b c Hab Hbc. apply compareFn_in_order.
      apply compareFn_in_order in Hab, Hbc. unfold in_order in *.
      destruct (direction sort);
        apply negb_true_iff in Hab, Hbc; apply negb_true_iff.
      + eapply val_lt_false_trans; eauto.
      + eapply (val_lt_false_trans sort c b a); eauto. }
  clear Hout. revert Hs.
  generalize (sort_by (compareFn sort) (deref h positions)) as l.
  induction 1 as [|x l Hl IH Hx]; constructor; [exact IH|].
  rewrite Forall_forall in *. intros y Hy. apply compareFn_in_order. auto.
Qed.

Lemma sortPositions_ordered_witness :
  let h := [[sample "A" (Some "0.2"); sample "B" None; sample "C" (Some "1.5")]] in
  StronglySorted (fun a b => in_order (mkSort K_weight_pct desc) a b = true)
    (deref (fst (sortPositions h 0%nat (mkSort K_weight_pct desc)))
           (snd (sortPositions h 0%nat (mkSort K_weight_pct desc)))).
Proof.
  cbv zeta.
  apply (sortPositions_ordered
           [[sample "A" (Some "0.2"); sample "B" None; sample "C" (Some "1.5")]]
           0%nat (mkSort K_weight_pct desc)).
  simpl. lia.
Defined.

End PositionsTableOrder.

Module QueryStringFacts.
Import ApiClient.

(** *** Characters of an encoded component *)

Lemma has_char_app (c : ascii) (s t : string) :
  has_char c (s ++ t) = has_char c s || has_char c t.
Proof.
  induction s as [|x r IH]; simpl; [reflexivity|].
  rewrite IH. apply orb_assoc.
Qed.

Lemma hex_upper_unreserved (n : nat) :
  (n < 16)%nat -> is_unreserved (hex_upper n) = true.
Proof.
  intros H. do 16 (destruct n as [|n]; [reflexivity|]). lia.
Qed.

Lemma hi_nibble_lt (c : ascii) : (Nat.div (nat_of_ascii c) 16 < 16)%nat.
Proof.
  pose proof (nat_ascii_bounded c).
  apply Nat.Div0.div_lt_upper_bound. simpl. lia.
Qed.

Lemma lo_nibble_lt (c : ascii) : (Nat.modulo (nat_of_ascii c) 16 < 16)%nat.
Proof. apply Nat.mod_upper_bound. lia. Qed.

Lemma encode_char_safe (c x : ascii) :
  has_char x (encode_char c) = true -> is_unreserved x = true \/ x = "%"%char.
Proof.
  unfold encode_char. destruct (is_unreserved c) eqn:E; cbn [has_char].
  - rewrite orb_false_r. intros H. apply Ascii.eqb_eq in H. subst. now left.
  - rewrite orb_false_r. intros H.
    apply orb_true_iff in H. destruct H as [H | H];
      [apply Ascii.eqb_eq in H; now right|].
    apply orb_true_iff in H.
    destruct H as [H | H]; apply Ascii.eqb_eq in H; subst; left;
      apply hex_upper_unreserved; [apply hi_nibble_lt | apply lo_nibble_lt].
Qed.

Lemma encodeURIComponent_safe (s : string) (x : ascii) :
  has_char x (encodeURIComponent s) = true ->
  is_unreserved x = true \/ x = "%"%char.
Proof.
  induction s as [|c r IH]; simpl; [discriminate|].
  rewrite has_char_app. intros H. apply orb_true_iff in H.
  destruct H as [H | H]; [eapply encode_char_safe; eauto | auto].
Qed.

Lemma encoded_has_no (s : string) (x : ascii) :
  is_unreserved x = false -> x <> "%"%char ->
  has_char x (encodeURIComponent s) = false.
Proof.
  intros Hu Hp. destruct (has_char x (encodeURIComponent s)) eqn:E; [|reflexivity].
  apply encodeURIComponent_safe in E. destruct E; congruence.
Qed.

(** *** [encodeURIComponent] is injective *)

Lemma hex_upper_inj (a b : nat) :
  (a < 16)%nat -> (b < 16)%nat -> hex_upper a = hex_upper b -> a = b.
Proof.
  intros Ha Hb H. apply (f_equal nat_of_ascii) in H. unfold hex_upper in H.
  destruct (Nat.ltb_spec a 10), (Nat.ltb_spec b 10);
    rewrite !nat_ascii_embedding in H by lia; lia.
Qed.

Lemma escape_inj (c d : ascii) :
  hex_upper (Nat.div (nat_of_ascii c) 16) = hex_upper (Nat.div (nat_of_ascii d) 16) ->
  hex_upper (Nat.modulo (nat_of_ascii c) 16) = hex_upper (Nat.modulo (nat_of_ascii d) 16) ->
  c = d.
Proof.
  intros H1 H2.
  apply hex_upper_inj in H1; [|apply hi_nibble_lt|apply hi_nibble_lt].
  apply hex_upper_inj in H2; [|apply lo_nibble_lt|apply lo_nibble_lt].
  rewrite <- (ascii_nat_embedding c), <- (ascii_nat_embedding d).
  f_equal.
  rewrite (Nat.div_mod_eq (nat_of_ascii c) 16), (Nat.div_mod_eq (nat_of_ascii d) 16).
  congruence.
Qed.

Lemma encodeURIComponent_inj (s : string) :
  forall t, encodeURIComponent s = encodeURIComponent t -> s = t.
Proof.
  induction s as [|c s IH]; intros [|d t]; cbn [encodeURIComponent];
    try reflexivity.
  - unfold encode_char. destruct (is_unreserved d); discriminate.
  - unfold encode_char. destruct (is_unreserved c); discriminate.
  - unfold encode_char.
    destruct (is_unreserved c) eqn:Ec, (is_unreserved d) eqn:Ed;
      cbn [String.append]; intros H.
    + injection H as -> H. f_equal. auto.
    + injection H as -> _. discriminate Ec.
    + injection H as <- _. discriminate Ed.
    + injection H as H1 H2 H. f_equal; [apply escape_inj; assumption | auto].
Qed.

(** *** Splitting at a separator *)

Lemma app_sep_inj (c : ascii) (x : string) :
  forall y r r',
  has_char c x = false -> has_char c y = false ->
  (x ++ String c r)%string = (y ++ String c r')%string -> x = y /\ r = r'.
Proof.
  induction x as [|a x IH]; intros [|b y] r r'; simpl; intros Hx Hy H.
  - injection H as ->. auto.
  - injection H as <- _. rewrite Ascii.eqb_refl in Hy. discriminate.
  - injection H as -> _. rewrite Ascii.eqb_refl in Hx. discriminate.
  - injection H as -> H.
    apply orb_false_iff in Hx, Hy. destruct Hx as [_ Hx], Hy as [_ Hy].
    destruct (IH y r r' Hx Hy H) as [-> ->]. auto.
Qed.

Lemma join_cons2 (x y : string) (l : list string) :
  join "&" (x :: y :: l) = (x ++ String "&" (join "&" (y :: l)))%string.
Proof. reflexivity. Qed.

Lemma join_amp_inj (xs : list string) :
  forall ys,
  Forall (fun x => has_char "&" x = false) xs ->
  Forall (fun y => has_char "&" y = false) ys ->
  xs <> [] -> ys <> [] ->
  join "&" xs = join "&" ys -> xs = ys.
Proof.
  induction xs as [|x xs IH]; intros ys Hxs Hys Hx Hy H; [congruence|].
  destruct ys as [|y ys]; [congruence|].
  inversion Hxs as [|? ? Hx0 Hxs']; subst. inversion Hys as [|? ? Hy0 Hys']; subst.
  destruct xs as [|x' xs], ys as [|y' ys].
  - simpl in H. congruence.
  - rewrite join_cons2 in H. cbn [join] in H. subst x.
    rewrite has_char_app in Hx0. cbn [has_char] in Hx0.
    rewrite Ascii.eqb_refl, orb_true_r in Hx0. discriminate.
  - rewrite join_cons2 in H. cbn [join] in H. subst y.
    rewrite has_char_app in Hy0. cbn [has_char] in Hy0.
    rewrite Ascii.eqb_refl, orb_true_r in Hy0. discriminate.
  - rewrite !join_cons2 in H.
    apply app_sep_inj in H; [|assumption|assumption].
    destruct H as [-> H]. f_equal. apply IH; auto; discriminate.
Qed.

Lemma join_has_no (x : ascii) (l : list string) :
  x <> "&"%char -> Forall (fun s => has_char x s = false) l ->
  has_char x (join "&" l) = false.
Proof.
  intros Hx. induction l as [|s l IH]; intros H; [reflexivity|].
  inversion H as [|? ? Hs Hl]; subst.
  destruct l as [|s' l]; [exact Hs|].
  rewrite join_cons2, has_char_app. cbn [has_char].
  rewrite Hs, (IH Hl). cbn [orb]. rewrite orb_false_r.
  apply Ascii.eqb_neq. congruence.
Qed.

(** One [name=value] pair of the query string. *)
Lemma item_no_amp (k v : string) :
  has_char "&" (encodeURIComponent k ++ "=" ++ encodeURIComponent v) = false.
Proof.
  rewrite has_char_app. cbn [String.append has_char]. 
  rewrite !encoded_has_no by (reflexivity || discriminate). reflexivity.
Qed.

Lemma item_has_no (x : ascii) (k v : string) :
  is_unreserved x = false -> x <> "%"%char -> x <> "="%char ->
  has_char x (encodeURIComponent k ++ "=" ++ encodeURIComponent v) = false.
Proof.
  intros Hu Hp He.
  rewrite has_char_app. cbn [String.append has_char].
  rewrite !encoded_has_no by assumption. cbn [orb].
  rewrite orb_false_r. apply Ascii.eqb_neq. congruence.
Qed.

Lemma item_inj (k v k' v' : string) :
  (encodeURIComponent k ++ "=" ++ encodeURIComponent v
   = encodeURIComponent k' ++ "=" ++ encodeURIComponent v')%string ->
  (k, v) = (k', v').
Proof.
  cbn [String.append]. intros H.
  apply app_sep_inj in H; try (apply encoded_has_no; reflexivity || discriminate).
  destruct H as [Hk Hv].
  apply encodeURIComponent_inj in Hk, Hv. congruence.
Qed.

Lemma map_item_inj (l : list (string * string)) :
  forall l', map item l = map item l' -> l = l'.
Proof.
  induction l as [|[k v] l IH]; intros [|[k' v'] l']; simpl; try congruence.
  intros H. injection H as H1 H2. f_equal; [now apply item_inj | auto].
Qed.

Lemma buildQueryString_items
    (Number_toString : JS.number -> string) (params : list (string * param)) :
  buildQueryString Number_toString params =
  match kept_texts Number_toString params with
  | [] => ""
  | l => ("?" ++ join "&" (map item l))%string
  end.
Proof.
  unfold buildQueryString, kept_texts.
  destruct (filter (fun e => param_kept (snd e)) params) as [|e l]; [reflexivity|].
  cbn [map]. rewrite map_map. reflexivity.
Qed.

Lemma buildQueryString_inj
    (Number_toString : JS.number -> string) (params params' : list (string * param)) :
  buildQueryString Number_toString params
  = buildQueryString Number_toString params' ->
  kept_texts Number_toString params = kept_texts Number_toString params'.
Proof.
  rewrite !buildQueryString_items.
  destruct (kept_texts Number_toString params) as [|e l] eqn:E1,
           (kept_texts Number_toString params') as [|e' l'] eqn:E2;
    try reflexivity; try discriminate.
  intros H.
  assert (H' : join "&" (map item (e :: l)) = join "&" (map item (e' :: l')))
    by (injection H as H; exact H).
  clear H. rename H' into H.
  apply join_amp_inj in H;
    try (apply Forall_forall; intros y Hy; apply in_map_iff in Hy;
         destruct Hy as ([k v] & <- & _); apply item_no_amp);
    try discriminate.
  now apply map_item_inj.
Qed.

(** [buildQueryString] is unambiguous, whatever text numbers print as: it
    is empty exactly when no parameter is kept (every value undefined, null or
    the empty string); otherwise it is [?] followed by text that holds no
    second [?], no [#] and no space, so that it stays inside the query part of
    the URL; and two records give the same query string only if they keep the
    same parameters, in the same order, with the same value texts. *)
Theorem buildQueryString_unambiguous
    (Number_toString : JS.number -> string) (params : list (string * param)) :
  (buildQueryString Number_toString params = ""
   <-> kept_texts Number_toString params = []) /\
  (kept_texts Number_toString params <> [] ->
   exists r, buildQueryString Number_toString params = String "?" r /\
     forall x, In x ["?"; "#"; " "; "/"]%char -> has_char x r = false) /\
  (forall params',
     buildQueryString Number_toString params
     = buildQueryString Number_toString params' ->
     kept_texts Number_toString params = kept_texts Number_toString params').
Proof.
  split; [|split].
  - rewrite buildQueryString_items.
    destruct (kept_texts Number_toString params); split; congruence || discriminate.
  - rewrite buildQueryString_items.
    destruct (kept_texts Number_toString params) as [|e l]; [congruence|].
    intros _. eexists. split; [reflexivity|].
    intros x Hx. apply join_has_no.
    + cbn [In] in Hx. decompose [or] Hx; subst; try discriminate; tauto.
    + apply Forall_forall. intros y Hy. apply in_map_iff in Hy.
      destruct Hy as ([k v] & <- & _). unfold item. cbn [fst snd].
      cbn [In] in Hx.
      decompose [or] Hx; subst; try tauto;
        apply item_has_no; reflexivity || discriminate.
  - intros params'. apply buildQueryString_inj.
Qed.

End QueryStringFacts.

Module TradesPageUrl.
Import ApiClient TradesPage.

Lemma toUpperCase_empty (s : string) : toUpperCase s = "" <-> s = "".
Proof. destruct s; simpl; split; congruence. Qed.

Lemma kept_texts_app (N : JS.number -> string) (l r : list (string * param)) :
  kept_texts N (l ++ r) = kept_texts N l ++ kept_texts N r.
Proof. unfold kept_texts. now rewrite filter_app, map_app. Qed.

Lemma kept_texts_spread_if (N : JS.number -> string) (v k w : string) :
  (w = "" <-> v = "") -> kept_texts N (spread_if v k w) = sent_if k w.
Proof.
  intros Hw. unfold spread_if, sent_if, kept_texts.
  destruct (String.eqb_spec v "") as [Hv | Hv], (String.eqb_spec w "") as [E | E];
    try reflexivity; try tauto.
  cbn [filter snd param_kept]. apply String.eqb_neq in E. rewrite E. reflexivity.
Qed.

Section Upper.
Variable upper : string -> string.
Hypothesis upper_empty : forall t, upper t = "" <-> t = "".

(** What a render sends: the non-empty filters, the ticker in upper case,
    then the limit and the offset. *)
Lemma kept_texts_queryParams (N : JS.number -> string) (f : Filters) (o : Z) :
  kept_texts N (queryParams upper f o) =
  sent_if "ticker" (upper (ticker f))
  ++ sent_if "side" (side f)
  ++ sent_if "status" (status f)
  ++ sent_if "start_date" (start_date f)
  ++ sent_if "end_date" (end_date f)
  ++ [ ("limit", N (JS.Fin (inject_Z LIMIT)));
       ("offset", N (JS.Fin (inject_Z o))) ].
Proof.
  unfold queryParams. rewrite !kept_texts_app.
  rewrite !kept_texts_spread_if by (apply upper_empty || tauto).
  reflexivity.
Qed.

End Upper.

Lemma sent_get (a b c d e x y : string) :
  let l := sent_if "ticker" a ++ sent_if "side" b ++ sent_if "status" c
           ++ sent_if "start_date" d ++ sent_if "end_date" e
           ++ [("limit", x); ("offset", y)] in
  record_get "ticker" l = (if String.eqb a "" then None else Some a) /\
  record_get "side" l = (if String.eqb b "" then None else Some b) /\
  record_get "status" l = (if String.eqb c "" then None else Some c) /\
  record_get "start_date" l = (if String.eqb d "" then None else Some d) /\
  record_get "end_date" l = (if String.eqb e "" then None else Some e) /\
  record_get "offset" l = Some y.
Proof.
  cbv zeta. unfold sent_if.
  destruct (String.eqb a ""), (String.eqb b ""), (String.eqb c ""),
           (String.eqb d ""), (String.eqb e "");
    repeat split; reflexivity.
Qed.

Lemma sent_value_eq (a a' : string) :
  (if String.eqb a "" then None else Some a)
  = (if String.eqb a' "" then None else Some a') -> a = a'.
Proof.
  destruct (String.eqb_spec a ""), (String.eqb_spec a' ""); congruence.
Qed.

Lemma append_inj_l (p a b : string) : (p ++ a = p ++ b)%string -> a = b.
Proof. induction p as [|c p IH]; simpl; intros H; [exact H | injection H; auto]. Qed.

(** The URL a render of the Trades page requests always carries a query
    string, and it identifies the query: two renders request the same URL
    exactly when the upper-case forms of their tickers are equal, their other
    four filters are equal and their offsets print the same.  Upper-casing is
    the library's, of which only this is used: it gives the empty string for
    the empty string and for no other.  So two tickers with one upper-case
    form, whatever their letters, are one query. *)
Theorem trades_url_identifies_query
    (upper : string -> string) (Number_toString : JS.number -> string)
    (f f' : Filters) (o o' : Z) :
  (forall t, upper t = "" <-> t = "") ->
  (exists r, request_url upper Number_toString f o = ("/api/trades?" ++ r)%string) /\
  (request_url upper Number_toString f o = request_url upper Number_toString f' o' <->
   upper (ticker f) = upper (ticker f') /\
   side f = side f' /\ status f = status f' /\
   start_date f = start_date f' /\ end_date f = end_date f' /\
   Number_toString (JS.Fin (inject_Z o)) = Number_toString (JS.Fin (inject_Z o'))).
Proof.
  intros Hup. split.
  - unfold request_url, fetchTrades_url.
    rewrite QueryStringFacts.buildQueryString_items,
      (kept_texts_queryParams upper Hup).
    match goal with
    | |- context [match ?l with [] => _ | _ => _ end] =>
        destruct l as [|e l'] eqn:E
    end.
    + exfalso. apply (f_equal (record_get "offset")) in E.
      destruct (sent_get (upper (ticker f)) (side f) (status f)
                  (start_date f) (end_date f)
                  (Number_toString (JS.Fin (inject_Z LIMIT)))
                  (Number_toString (JS.Fin (inject_Z o))))
        as (_ & _ & _ & _ & _ & Ho).
      cbv zeta in Ho. rewrite Ho in E. discriminate.
    + eexists. reflexivity.
  - split.
    + unfold request_url, fetchTrades_url. intros H.
      apply append_inj_l, append_inj_l in H.
      apply QueryStringFacts.buildQueryString_inj in H.
      rewrite !(kept_texts_queryParams upper Hup) in H.
      pose proof (sent_get (upper (ticker f)) (side f) (status f)
                    (start_date f) (end_date f)
                    (Number_toString (JS.Fin (inject_Z LIMIT)))
                    (Number_toString (JS.Fin (inject_Z o)))) as G.
      pose proof (sent_get (upper (ticker f')) (side f') (status f')
                    (start_date f') (end_date f')
                    (Number_toString (JS.Fin (inject_Z LIMIT)))
                    (Number_toString (JS.Fin (inject_Z o')))) as G'.
      cbv zeta in G, G'. rewrite <- H in G'.
      destruct G as (G1 & G2 & G3 & G4 & G5 & G6).
      destruct G' as (G1' & G2' & G3' & G4' & G5' & G6').
      rewrite G1 in G1'. rewrite G2 in G2'. rewrite G3 in G3'.
      rewrite G4 in G4'. rewrite G5 in G5'. rewrite G6 in G6'.
      repeat split; try (apply sent_value_eq; assumption). congruence.
    + intros (H1 & H2 & H3 & H4 & H5 & H6).
      unfold request_url, fetchTrades_url. do 2 f_equal.
      rewrite !QueryStringFacts.buildQueryString_items,
        !(kept_texts_queryParams upper Hup).
      rewrite H1, H2, H3, H4, H5, H6. reflexivity.
Qed.

Lemma trades_url_identifies_query_witness :
  request_url toUpperCase (fun _ => "0") (mkFilters "aapl" "BUY" "" "" "") 0
  = request_url toUpperCase (fun _ => "0") (mkFilters "AAPL" "BUY" "" "" "") 0.
Proof.
  apply (trades_url_identifies_query toUpperCase (fun _ => "0")
           (mkFilters "aapl" "BUY" "" "" "") (mkFilters "AAPL" "BUY" "" "" "") 0 0
           toUpperCase_empty).
  repeat split; reflexivity.
Defined.

End TradesPageUrl.

Module HandleSortFacts.
Import Types PositionsTable.

Lemma SortKey_eqb_refl (k : SortKey) : SortKey_eqb k k = true.
Proof. destruct k; reflexivity. Qed.

(** A click on a column header: on the active column it flips the direction,
    so that the table order is turned round (a row may stand before another
    exactly when it might stand after it before the click) and a second click
    restores the configuration; on any other column it starts descending,
    whatever the direction was. *)
Theorem handleSort_toggles (sort : SortConfig SortKey) :
  (forall a b, in_order (handleSort (key sort) sort) a b = in_order sort b a) /\
  handleSort (key sort) (handleSort (key sort) sort) = sort /\
  (forall k, SortKey_eqb (key sort) k = false ->
     handleSort k sort = mkSort k desc /\
     handleSort k (handleSort k sort) = mkSort k asc).
Proof.
  destruct sort as [k d]. cbn [key]. unfold handleSort, in_order.
  cbn [key direction]. rewrite SortKey_eqb_refl.
  split; [|split].
  - intros a b. destruct d; reflexivity.
  - cbn [key direction]. rewrite ?SortKey_eqb_refl. destruct d; reflexivity.
  - intros k' Hk. rewrite Hk. cbn [key direction].
    rewrite ?SortKey_eqb_refl. split; reflexivity.
Qed.

End HandleSortFacts.
